(** * The WebSocket chat relay: message handler and media cascade

    A shallow embedding of the [ws.on('message', ...)] handler of the relay
    and of [deleteMediaByMessages] (utils/mediaDelete.js).

    - JavaScript values that travel in the JSON envelopes and in Firestore
      documents are the type [JsVal]; a document is a finite map from field
      names to values, a missing field reads as [undefined].
    - Firestore is a [Store] of three collections; the handler is a state
      transformer over it that also produces a trace of observable events
      (frames sent on sockets, calls to the media store, [console.error]
      lines) and either completes or throws.
    - Collaborators whose answers the relay cannot control (the clock, the
      media store, bcrypt, the identity service) are the fields of [Env].
    - The HTTP routes (the two uploads and the profile update) are the
      module [Http], with effects and failures of their own. *)

From Stdlib Require Import ZArith NArith String List Sorting.Sorted.
From Stdlib Require OrderedTypeEx.
From stdpp Require Import base option list gmap strings pretty sorting.


(** ** JavaScript values *)

(** The values a field of a parsed envelope or of a stored document can
    hold.  Numbers are the integers; [JTime] is a Firestore [Timestamp]
    object (only the server produces one); JSON objects and arrays are not
    used by any field the handler reads and are left out. *)
Inductive JsVal : Type :=
  | JUndefined
  | JNull
  | JBool (b : bool)
  | JNum (n : Z)
  | JStr (s : string)
  | JTime (t : Z).

#[global] Instance JsVal_eq_dec : EqDecision JsVal.
Proof. solve_decision. Defined.

(** [!!v] *)
Definition truthy (v : JsVal) : bool :=
  match v with
  | JUndefined | JNull => false
  | JBool b => b
  | JNum n => negb (n =? 0)%Z
  | JStr s => negb (s =? "")%string
  | JTime _ => true
  end.

(** [a === b].  Two [Timestamp] objects are compared by reference; every
    [data()] call builds fresh ones, so they are never identical. *)
Definition strict_eq (a b : JsVal) : bool :=
  match a, b with
  | JUndefined, JUndefined => true
  | JNull, JNull => true
  | JBool x, JBool y => Bool.eqb x y
  | JNum x, JNum y => (x =? y)%Z
  | JStr x, JStr y => (x =? y)%string
  | _, _ => false
  end.

(** [a || b] *)
Definition js_or (a b : JsVal) : JsVal := if truthy a then a else b.

(** ** Documents *)

Abbreviation Doc := (gmap string JsVal).

(** [d.k] on a plain object: a missing property is [undefined]. *)
Definition field (d : Doc) (k : string) : JsVal := default JUndefined (d !! k).

(** One property of an object literal handed to [set]; the database runs
    with [ignoreUndefinedProperties], so an [undefined] value is not
    written. *)
Definition set_field (k : string) (v : JsVal) (d : Doc) : Doc :=
  match v with
  | JUndefined => d
  | _ => <[k := v]> d
  end.

(** ** The database *)

(** [rooms] and [users] are keyed by document id; [messages] holds the
    sub-collections [rooms/<room>/messages], keyed by room, then by message
    id.  A sub-collection lives on when its room document is deleted. *)
Record Store : Type := mkStore {
  rooms : gmap string Doc;
  messages : gmap string (gmap string Doc);
  users : gmap string Doc
}.

Definition with_rooms (f : gmap string Doc → gmap string Doc) (st : Store) : Store :=
  mkStore (f (rooms st)) (messages st) (users st).
Definition with_messages
    (f : gmap string (gmap string Doc) → gmap string (gmap string Doc))
    (st : Store) : Store :=
  mkStore (rooms st) (f (messages st)) (users st).

(** The documents of [rooms/<room>/messages]. *)
Definition messages_of (st : Store) (room : string) : gmap string Doc :=
  default ∅ (messages st !! room).

(** [rooms/<room>/messages/<id>] *)
Definition message_doc (st : Store) (room id : string) : option Doc :=
  messages_of st room !! id.

(** A write to [rooms/<room>/messages]. *)
Definition in_messages (room : string) (f : gmap string Doc → gmap string Doc)
    (st : Store) : Store :=
  with_messages <[room := f (messages_of st room)]> st.
Definition with_users (f : gmap string Doc → gmap string Doc) (st : Store) : Store :=
  mkStore (rooms st) (messages st) (f (users st)).

(** A query snapshot is a list of documents (id and data). *)
Abbreviation Snapshot := (list (string * Doc)).

(** Order of a query without [orderBy]: by document id. *)
Definition by_id : relation (string * Doc) :=
  λ x y, String.leb x.1 y.1 = true.

(** Firestore's order on values of different types, restricted to [JsVal]:
    null, booleans, numbers, timestamps, strings. *)
Definition type_rank (v : JsVal) : Z :=
  match v with
  | JUndefined => 0
  | JNull => 1
  | JBool _ => 2
  | JNum _ => 3
  | JTime _ => 4
  | JStr _ => 5
  end.

Definition value_compare (a b : JsVal) : comparison :=
  match a, b with
  | JBool x, JBool y => Bool.compare x y
  | JNum x, JNum y => (x ?= y)%Z
  | JTime x, JTime y => (x ?= y)%Z
  | JStr x, JStr y => String.compare x y
  | _, _ => (type_rank a ?= type_rank b)%Z
  end.

(** Order of a query with [orderBy(k)]: by the value of field [k], ties
    broken by document id. *)
Definition by_field (k : string) : relation (string * Doc) :=
  λ x y,
    match value_compare (field x.2 k) (field y.2 k) with
    | Lt => True
    | Eq => String.leb x.1 y.1 = true
    | Gt => False
    end.

#[global] Instance by_id_dec x y : Decision (by_id x y).
Proof. unfold by_id. apply _. Defined.

#[global] Instance by_field_dec k x y : Decision (by_field k x y).
Proof. unfold by_field. destruct (value_compare _ _); apply _. Defined.

(** The documents of a collection, in no particular order. *)
Definition rooms_collection (st : Store) : Snapshot := map_to_list (rooms st).

(** The sub-collection [rooms/<room>/messages]. *)
Definition messages_collection (st : Store) (room : string) : Snapshot :=
  map_to_list (messages_of st room).

(** [collection.get()] *)
Definition get_docs (c : Snapshot) : Snapshot := merge_sort by_id c.

(** [collection.orderBy(k).get()]: documents without field [k] are not
    returned. *)
Definition get_docs_ordered (k : string) (c : Snapshot) : Snapshot :=
  merge_sort (by_field k)
    (filter (λ kv : string * Doc, field kv.2 k ≠ JUndefined) c).

(** [collection.where(k, '==', v).get()] *)
Definition get_docs_where (k : string) (v : JsVal) (c : Snapshot) : Snapshot :=
  get_docs (filter (λ kv : string * Doc, field kv.2 k = v) c).

(** [recursiveDelete(rooms/<room>)]: the room document and everything
    under it. *)
Definition recursiveDelete (room : string) (st : Store) : Store :=
  with_rooms (delete room) (with_messages (delete room) st).

(** ** Effects *)

(** What a step of the handler can throw. *)
Inductive Exn : Type :=
  | SyntaxError        (* [JSON.parse] on a frame that is not JSON *)
  | InvalidPath        (* Firestore: a document path must be a non-empty string *)
  | TypeError          (* property read on [undefined] *)
  | ReferenceError     (* an identifier that is not in scope *)
  | BcryptError        (* bcrypt: data and hash must be strings *)
  | MediaError         (* the media store rejected the call *)
  | AuthError (not_found : bool).  (* identity service; [auth/user-not-found] or other *)

Inductive ErrorTag : Type := TagCreate | TagJoin.

Record RoomInfo : Type := mkRoomInfo {
  name : string;
  private : bool;
  createdBy : JsVal
}.

(** The frames the relay sends, one constructor per [type]. *)
Inductive Envelope : Type :=
  | RoomsUpdated (rooms : list RoomInfo)
  | CreateSuccess (roomName : JsVal)
  | Error (tag : option ErrorTag) (message : string)
  | JoinSuccess (roomName : JsVal) (messages : list Doc)
  | Message (message : Doc)
  | MessageDeleted (id : JsVal)
  | DeleteSuccess.

Inductive LogLine : Type :=
  | FailedToDelete (public_id : JsVal)
  | MessageDeleteFailed (e : Exn)
  | DeleteFailed (e : Exn)
  | TotalDeleteFailed (e : Exn)
  | ErrorHandlingMessage (e : Exn).

(** What the outside can observe.  [WsSend] is [ws.send] on the socket of
    the sender, [ClientsSend] the loop over [wss.clients] that sends to
    every open socket.  The informational [console.log] lines are not
    recorded. *)
Inductive Event : Type :=
  | WsSend (e : Envelope)
  | ClientsSend (e : Envelope)
  | CloudinaryDestroy (public_id : JsVal) (resource_type : string)
  | ConsoleError (l : LogLine).

Inductive Completion (A : Type) : Type :=
  | Normal (a : A)
  | Thrown (e : Exn).
Arguments Normal {A} a.
Arguments Thrown {A} e.

(** An asynchronous step: it reads and writes the database, leaves a trace
    and completes or throws.  What was written and sent before a throw
    stays. *)
Definition Task (A : Type) : Type := Store → Completion A * Store * list Event.

Definition ret {A} (a : A) : Task A := λ st, (Normal a, st, []).
Definition throw {A} (e : Exn) : Task A := λ st, (Thrown e, st, []).

Definition bind {A B} (m : Task A) (k : A → Task B) : Task B :=
  λ st,
    match m st with
    | (Normal a, st1, t1) =>
        match k a st1 with
        | (r, st2, t2) => (r, st2, t1 ++ t2)
        end
    | (Thrown e, st1, t1) => (Thrown e, st1, t1)
    end.

(** [try { m } catch (e) { h e }] *)
Definition try_catch {A} (m : Task A) (h : Exn → Task A) : Task A :=
  λ st,
    match m st with
    | (Normal a, st1, t1) => (Normal a, st1, t1)
    | (Thrown e, st1, t1) =>
        match h e st1 with
        | (r, st2, t2) => (r, st2, t1 ++ t2)
        end
    end.

(** stdpp's notations [x ← m; k] and [m;; k] for sequencing. *)
#[global] Instance Task_ret : MRet Task := @ret.
#[global] Instance Task_bind : MBind Task := λ A B k m, bind m k.

Definition emit (e : Event) : Task unit := λ st, (Normal tt, st, [e]).
Definition read {A} (f : Store → A) : Task A := λ st, (Normal (f st), st, []).
Definition write (f : Store → Store) : Task unit := λ st, (Normal tt, f st, []).

(** [ws.send(JSON.stringify(e))] *)
Definition ws_send (e : Envelope) : Task unit := emit (WsSend e).
(** [wss.clients.forEach(client => open && client.send(JSON.stringify(e)))] *)
Definition clients_send (e : Envelope) : Task unit := emit (ClientsSend e).
Definition console_error (l : LogLine) : Task unit := emit (ConsoleError l).

(** [collection.doc(path)]: the path must be a non-empty string.  A
    string without a slash is the id of a document of the collection, and
    [doc] returns it.  Firestore splits a path at its slashes and then
    either refuses it (["a/b"]) or follows it into a nested collection
    (["lobby/messages/x"]); [doc] does neither and takes every non-empty
    string as an id, so it is the call of the source on the strings that
    can be the id of a document ([document_id], below) and on them only. *)
Definition doc (path : JsVal) : Task string :=
  match path with
  | JStr s => if (s =? "")%string then throw InvalidPath else ret s
  | _ => throw InvalidPath
  end.

(** [m(); rest] for an asynchronous [m] that the caller does not await.
    [m] starts at the call and works on the store as it is then; what it
    sends leaves when its first [await] has answered, which is after the
    synchronous [rest] of the caller.  Nobody catches what [m] throws. *)
Definition unawaited {A} (m : Task unit) (rest : Task A) : Task A :=
  λ st,
    match m st with
    | (_, st1, t1) =>
        match rest st1 with
        | (r, st2, t2) => (r, st2, t2 ++ t1)
        end
    end.

(** [snapshot.data().k]: [data()] is [undefined] for a missing document. *)
Definition data_field (snapshot : option Doc) (k : string) : Task JsVal :=
  match snapshot with
  | Some d => ret (field d k)
  | None => throw TypeError
  end.

(** ** The collaborators *)

Inductive AuthOutcome : Type := UserDeleted | UserNotFound | AuthFailure.

Record Env : Type := mkEnv {
  (** [Date.now()], milliseconds *)
  date_now : N;
  (** the time the server puts in place of [FieldValue.serverTimestamp()] *)
  server_timestamp : Z;
  (** [bcrypt.hash(s, saltRounds)] on a string *)
  bcrypt_hash : string → string;
  (** [bcrypt.compare(s, hash)] on two strings *)
  bcrypt_compare : string → string → bool;
  (** whether [cloudinary.uploader.destroy(public_id, {resource_type})] resolves *)
  destroy_resolves : JsVal → string → bool;
  (** [admin.auth().deleteUser(uid)] *)
  auth_delete_user : JsVal → AuthOutcome
}.

(** ** utils/mediaDelete.js *)

Section Relay.
Context (env : Env).

(** [await cloudinary.uploader.destroy(public_id, { resource_type })].
    A rejection carries an error object, so reading its [message] in a
    handler does not throw. *)
Definition destroy (public_id : JsVal) (resource_type : string) : Task unit :=
  emit (CloudinaryDestroy public_id resource_type);;
  if destroy_resolves env public_id resource_type then ret tt else throw MediaError.

(** [type === "audio" ? "video" : "image"] *)
Definition resourceType (type : JsVal) : string :=
  if strict_eq type (JStr "audio") then "video" else "image".

Fixpoint deleteMediaByMessages (messageList : Snapshot) : Task unit :=
  match messageList with
  | [] => ret tt
  | msg :: rest =>
      (if negb (truthy (field msg.2 "public_id")) then ret tt
       else
         try_catch
           (destroy (field msg.2 "public_id") (resourceType (field msg.2 "type")))
           (λ err, console_error (FailedToDelete (field msg.2 "public_id"))));;
      deleteMediaByMessages rest
  end.

(** ** The socket handler *)

(** The fields the handler destructures from the parsed frame; a field
    the frame does not carry is [undefined]. *)
Record Inbound : Type := mkInbound {
  action : JsVal;
  roomName : JsVal;
  username : JsVal;
  text : JsVal;
  replyTo : JsVal;
  password : JsVal;
  uid : JsVal;
  public_id : JsVal;
  type : JsVal;
  msgId : JsVal
}.

(** [await bcrypt.hash(data, saltRounds)] *)
Definition hash (data : JsVal) : Task JsVal :=
  match data with
  | JStr s => ret (JStr (bcrypt_hash env s))
  | _ => throw BcryptError
  end.

(** [await bcrypt.compare(data, hash)] *)
Definition compare (data hash : JsVal) : Task bool :=
  match data, hash with
  | JStr s, JStr h => ret (bcrypt_compare env s h)
  | _, _ => throw BcryptError
  end.

(** [admin.auth().deleteUser(uid)] *)
Definition deleteUser (uid : JsVal) : Task unit :=
  match auth_delete_user env uid with
  | UserDeleted => ret tt
  | UserNotFound => throw (AuthError true)
  | AuthFailure => throw (AuthError false)
  end.

(** The callers do not await this function.  The query is issued at the
    call, so the list is the one of the store at the call; the frames leave
    after the query has answered.  In the delete-room and delete-account
    flows and on connection the call is the last step that sends, and it
    is sequenced as it is written.  In the create flow a reply follows the
    call: there the call is [unawaited], which puts the room list after
    that reply, as the two frames go on the wire. *)
Definition sendRoomList : Task unit :=
  snapShot ← read (λ st, get_docs (rooms_collection st));
  clients_send
    (RoomsUpdated
       (map (λ doc : string * Doc,
               mkRoomInfo doc.1 (truthy (field doc.2 "password"))
                          (field doc.2 "createdBy"))
            snapShot)).

(** [action === 'create'] *)
Definition create (data : Inbound) : Task unit :=
  if negb (truthy (roomName data)) && negb (truthy (uid data)) then ret tt
  else
    roomRef ← doc (roomName data);
    roomDoc ← read (λ st, rooms st !! roomRef);
    match roomDoc with
    | None =>
        hashed ← (if truthy (password data) then hash (password data)
                  else ret (password data));
        write (with_rooms
                 <[roomRef :=
                     set_field "password" (js_or hashed JNull)
                       (set_field "createdBy" (uid data)
                          (set_field "createdAt" (JTime (server_timestamp env)) ∅))]>);;
        unawaited sendRoomList (ws_send (CreateSuccess (roomName data)))
    | Some _ =>
        ws_send (Error (Some TagCreate) "Room already exist !")
    end.

(** [action === 'join'] *)
Definition join (data : Inbound) : Task unit :=
  roomRef ← doc (roomName data);
  roomDoc ← read (λ st, rooms st !! roomRef);
  match roomDoc with
  | None => ws_send (Error (Some TagJoin) "Room doesn't exist.")
  | Some room =>
      matched ← (if truthy (field room "password")
                 then compare (password data) (field room "password")
                 else ret true);
      if negb matched then ws_send (Error (Some TagJoin) "Incorrect password.")
      else
        messagesSnapshot ←
          read (λ st, get_docs_ordered "timestamp" (messages_collection st roomRef));
        ws_send (JoinSuccess (roomName data) (map snd messagesSnapshot))
  end.

(** The object literal [newMsg], as the database stores it. *)
Definition newMsg (data : Inbound) : Doc :=
  set_field "id" (JStr (pretty (date_now env)))
    (set_field "userId" (uid data)
       (set_field "username" (username data)
          (set_field "text" (text data)
             (set_field "replyTo" (replyTo data)
                (set_field "type" (js_or (type data) JNull)
                   (set_field "public_id" (js_or (public_id data) JNull)
                      (set_field "roomName" (roomName data)
                         (set_field "timestamp" (JTime (server_timestamp env)) ∅)))))))).

(** [action === 'message'] *)
Definition message (data : Inbound) : Task unit :=
  roomRef ← doc (roomName data);
  roomDoc ← read (λ st, rooms st !! roomRef);
  match roomDoc with
  | None => ret tt
  | Some _ =>
      messageRef ← doc (field (newMsg data) "id");
      write (in_messages roomRef <[messageRef := newMsg data]>);;
      msg ← read (λ st, message_doc st roomRef messageRef);
      clients_send (Message (default ∅ msg))
  end.

(** [action === 'delete-message'] *)
Definition delete_message (data : Inbound) : Task unit :=
  try_catch
    (roomRef ← doc (roomName data);
     messageRef ← doc (msgId data);
     message ← read (λ st, message_doc st roomRef messageRef);
     userId ← data_field message "userId";
     if strict_eq userId (uid data) then
       public_id ← data_field message "public_id";
       (if truthy public_id then
          try_catch
            (type ← data_field message "type";
             destroy public_id (resourceType type))
            (λ err, console_error (FailedToDelete public_id))
        else ret tt);;
       write (in_messages roomRef (delete messageRef));;
       ws_send (MessageDeleted (msgId data))
     else ret tt)
    (λ error, console_error (MessageDeleteFailed error)).

(** [action === 'delete-room'] *)
Definition delete_room (data : Inbound) : Task unit :=
  try_catch
    (roomRef ← doc (roomName data);
     roomDoc ← read (λ st, rooms st !! roomRef);
     match roomDoc with
     | None => ret tt
     | Some room =>
         if negb (strict_eq (field room "owner") (uid data)) then
           ws_send (Error None "Only the creator can delete this room.")
         else
           messagesSnapshot ← read (λ st, get_docs (messages_collection st roomRef));
           deleteMediaByMessages messagesSnapshot;;
           (* batch.delete(doc.ref) for each document, then commit *)
           write (in_messages roomRef
                    (λ c, foldr (λ d : string * Doc, delete d.1) c messagesSnapshot));;
           write (with_rooms (delete roomRef));;
           sendRoomList
     end)
    (λ error, console_error (DeleteFailed error)).

(** The loop over the rooms created by the account. *)
Fixpoint delete_rooms (roomSnap : Snapshot) : Task unit :=
  match roomSnap with
  | [] => ret tt
  | room :: rest =>
      messagesSnap ← read (λ st, get_docs (messages_collection st room.1));
      deleteMediaByMessages messagesSnap;;
      write (recursiveDelete room.1);;
      delete_rooms rest
  end.

(** [action === 'delete-account'] *)
Definition delete_account (data : Inbound) : Task unit :=
  if negb (truthy (uid data)) then ret tt
  else
    try_catch
      (try_catch (deleteUser (uid data))
         (λ err, match err with
                 | AuthError true => ret tt
                 | _ => throw err
                 end);;
       userRef ← doc (uid data);
       userSnapShot ← read (λ st, users st !! userRef);
       avatar ← data_field userSnapShot "public_id";
       (if truthy avatar then
          (* the handler binds [error] and reads [err.message] *)
          try_catch (destroy avatar "image") (λ error, throw ReferenceError)
        else ret tt);;
       write (with_users (delete userRef));;
       roomSnap ← read (λ st, get_docs_where "createdBy" (uid data) (rooms_collection st));
       delete_rooms roomSnap;;
       ws_send DeleteSuccess;;
       sendRoomList)
      (λ err, console_error (TotalDeleteFailed err)).

(** [ws.on('message', async (msg) => ...)].  [msg] is [None] for a frame
    that [JSON.parse] rejects and [Some] for a frame that parses to a value
    the handler can destructure.  The frame [null] parses and cannot be
    destructured; it has no [Inbound] and is handled in [on_frame], below.
    The tests on [action] exclude each other, so the sequence of [if]
    statements is a chain. *)
Definition on_message (msg : option Inbound) : Task unit :=
  try_catch
    (data ← (match msg with Some d => ret d | None => throw SyntaxError end);
     if strict_eq (action data) (JStr "create") then create data
     else if strict_eq (action data) (JStr "join") then join data
     else if strict_eq (action data) (JStr "message") then message data
     else if strict_eq (action data) (JStr "delete-message") then delete_message data
     else if strict_eq (action data) (JStr "delete-room") then delete_room data
     else if strict_eq (action data) (JStr "delete-account") then delete_account data
     else ret tt)
    (λ error, console_error (ErrorHandlingMessage error)).

(** What [JSON.parse(msg)] makes of a frame, as far as the destructuring
    [const { action, ... } = data] can tell. *)
Inductive Parsed : Type :=
  | NotJson                      (* [JSON.parse] throws *)
  | JsonNull                     (* the frame [null]: destructuring throws *)
  | JsonValue (data : Inbound).  (* an object; or a number, a string, a
                                    boolean or an array, which have none of
                                    the ten fields *)

(** The handler on every frame. *)
Definition on_frame (msg : Parsed) : Task unit :=
  match msg with
  | NotJson => on_message None
  | JsonNull =>
      try_catch (throw TypeError)
                (λ error, console_error (ErrorHandlingMessage error))
  | JsonValue data => on_message (Some data)
  end.

End Relay.

(** * Properties *)

(** ** Reading traces *)

(** The frames of a trace that reach a client. *)
Definition is_frame (e : Event) : bool :=
  match e with
  | WsSend _ | ClientsSend _ => true
  | _ => false
  end.

Definition frames (tr : list Event) : list Event := filter is_frame tr.

(** The calls to the media store in a trace. *)
Definition destroy_calls (tr : list Event) : list (JsVal * string) :=
  omap (λ e, match e with CloudinaryDestroy p r => Some (p, r) | _ => None end) tr.

(** What the cleanup of one message leaves in the trace. *)
Definition media_cleanup (env : Env) (d : Doc) : list Event :=
  if truthy (field d "public_id") then
    CloudinaryDestroy (field d "public_id") (resourceType (field d "type"))
    :: (if destroy_resolves env (field d "public_id") (resourceType (field d "type"))
        then [] else [ConsoleError (FailedToDelete (field d "public_id"))])
  else [].

(** The one call a message with a media id asks for. *)
Definition media_call (d : Doc) : option (JsVal * string) :=
  if truthy (field d "public_id") then
    Some (field d "public_id",
          if decide (field d "type" = JStr "audio") then "video" else "image")
  else None.

(** ** Rooms and their messages *)

(** A join frame with [password] is let into [room]: the room has no
    password, or the password is a string that the stored hash verifies. *)
Definition join_admits (env : Env) (room : Doc) (password : JsVal) : Prop :=
  truthy (field room "password") = false
  ∨ ∃ p h, password = JStr p ∧ field room "password" = JStr h
           ∧ bcrypt_compare env p h = true.

(** The [timestamp] of [a] is not after the one of [b], in the order of
    the database. *)
Definition timestamp_le (a b : Doc) : Prop :=
  value_compare (field a "timestamp") (field b "timestamp") ≠ Gt.

(** Every stored message carries a server timestamp. *)
Definition stamped (st : Store) : Prop :=
  ∀ r m d, message_doc st r m = Some d → ∃ t, field d "timestamp" = JTime t.

(** The room list as [sendRoomList] builds it. *)
Definition room_list (st : Store) : list RoomInfo :=
  map (λ doc : string * Doc,
         mkRoomInfo doc.1 (truthy (field doc.2 "password")) (field doc.2 "createdBy"))
      (get_docs (rooms_collection st)).

(** [P] is an invariant of the step [m]: it holds of the store [m]
    leaves, however [m] ends. *)
Definition preserves {A} (P : Store → Prop) (m : Task A) : Prop :=
  ∀ st, P st → P (m st).1.2.

(** ** A scenario *)

(** Collaborators that work: a clock, a toy bcrypt and a media store and an
    identity service that accept every call. *)
Definition env_up : Env :=
  mkEnv 1700000000000%N 1700000000
        (λ s, "$2b$10$" +:+ s)
        (λ s h, bool_decide (h = "$2b$10$" +:+ s))
        (λ _ _, true)
        (λ _, UserDeleted).

(** The same with a media store that rejects every call. *)
Definition env_media_down : Env :=
  mkEnv 1700000000500%N 1700000001
        (λ s, "$2b$10$" +:+ s)
        (λ s h, bool_decide (h = "$2b$10$" +:+ s))
        (λ _ _, false)
        (λ _, UserDeleted).

Definition no_store : Store := mkStore ∅ ∅ ∅.

(** A frame with [action], [roomName], [uid], [password] and [msgId];
    the other fields are absent. *)
Definition frame (action roomName uid password msgId : JsVal) : Inbound :=
  mkInbound action roomName JUndefined JUndefined JUndefined password uid
            JUndefined JUndefined msgId.

(** [{action: "message", roomName, uid, username, text, type, public_id}] *)
Definition message_frame (roomName uid username text type public_id : JsVal) : Inbound :=
  mkInbound (JStr "message") roomName username text JUndefined JUndefined uid
            public_id type JUndefined.

(** The store after the handler has run on a frame. *)
Definition after (env : Env) (data : Inbound) (st : Store) : Store :=
  (on_message env (Some data) st).1.2.

(** Room "lobby" created by "u1" without a password. *)
Definition lobby_store : Store :=
  after env_up
    (frame (JStr "create") (JStr "lobby") (JStr "u1") JUndefined JUndefined)
    no_store.

(** Room "vault" created by "u1" with password "s3cret", next to "lobby". *)
Definition vault_store : Store :=
  after env_up
    (frame (JStr "create") (JStr "vault") (JStr "u1") (JStr "s3cret") JUndefined)
    lobby_store.

(** "u1" has sent a voice note and a text to "lobby". *)
Definition chat_store : Store :=
  after env_media_down
    (message_frame (JStr "lobby") (JStr "u1") (JStr "ann") (JStr "hi") JUndefined JUndefined)
    (after env_up
       (message_frame (JStr "lobby") (JStr "u1") (JStr "ann") (JStr "") (JStr "audio")
                      (JStr "chat_app_audio/a1"))
       lobby_store).

(** The same with a profile of "u1" that has an avatar. *)
Definition account_store : Store :=
  with_users <["u1" := {[ "username" := JStr "ann";
                          "public_id" := JStr "chat_app_avatar/u1" ]}]> chat_store.

(** The frames that lead from the empty database to [chat_store]. *)
Definition chat_frames : list (Env * option Inbound) :=
  [ (env_up,
     Some (frame (JStr "create") (JStr "lobby") (JStr "u1") JUndefined JUndefined));
    (env_up,
     Some (message_frame (JStr "lobby") (JStr "u1") (JStr "ann") (JStr "")
                         (JStr "audio") (JStr "chat_app_audio/a1")));
    (env_media_down,
     Some (message_frame (JStr "lobby") (JStr "u1") (JStr "ann") (JStr "hi")
                         JUndefined JUndefined)) ].

(** ** The relay as a state machine *)

(** [wss.on('connection', ...)]: the room list goes to every open socket. *)
Definition on_connection : Task unit := sendRoomList.

(** A value that [JSON.parse] can produce. *)
Definition is_json (v : JsVal) : Prop := ∀ t, v ≠ JTime t.

(** Whether a string has a slash in it. *)
Fixpoint has_slash (s : string) : bool :=
  match s with
  | EmptyString => false
  | String c s' => (String c "" =? "/")%string || has_slash s'
  end.

(** The strings that can be the id of a document, after Firestore's rules
    for document ids: not empty, at most 1500 bytes, no slash, not ["."] or
    [".."], not of the reserved form [__.*__] (no string that starts with
    two underscores is counted here).  [collection.doc] throws on the empty
    string and splits a string with a slash into a path, which it refuses
    or follows into a nested collection; the server refuses the rest at the
    first read or write. *)
Definition document_id (s : string) : bool :=
  negb (s =? "")%string && negb (has_slash s)
  && negb (s =? ".")%string && negb (s =? "..")%string
  && negb (String.prefix "__" s) && (String.length s <=? 1500)%nat.

(** A value that [doc] treats as [collection.doc] does: the id of a
    document, or a value [collection.doc] throws on at once (the empty
    string, what is not a string). *)
Definition plain (v : JsVal) : bool :=
  match v with
  | JStr s => (s =? "")%string || document_id s
  | _ => true
  end.

(** A frame whose [roomName], [msgId] and [uid], the three fields the
    handler looks documents up with, are plain. *)
Definition plain_frame (data : Inbound) : bool :=
  plain (roomName data) && plain (msgId data) && plain (uid data).

Definition plain_entry (f : Env * option Inbound) : bool :=
  match f.2 with
  | Some data => plain_frame data
  | None => true
  end.

(** The room document the create flow writes. *)
Definition new_room (password creator : JsVal) (t : Z) : Doc :=
  set_field "password" password
    (set_field "createdBy" creator (set_field "createdAt" (JTime t) ∅)).

(** The [password] field the create flow stores for the [password] of
    the frame: the hash of a non-empty string, [null] otherwise. *)
Definition stored_password (env : Env) (password : JsVal) : JsVal :=
  match password with
  | JStr p => if truthy password then js_or (JStr (bcrypt_hash env p)) JNull else JNull
  | _ => JNull
  end.

(** The ways a frame can change the database. *)
Inductive transition (st : Store) : Store → Prop :=
  | t_nothing :
      transition st st
  | t_room_created (r : string) (password creator : JsVal) (t : Z) :
      r ≠ "" →
      rooms st !! r = None →
      (password = JNull ∨ ∃ h, password = JStr h ∧ h ≠ "") →
      transition st (with_rooms <[r := new_room password creator t]> st)
  | t_message_stored (r m : string) (d : Doc) :
      r ≠ "" → m ≠ "" →
      is_Some (rooms st !! r) →
      field d "id" = JStr m →
      field d "roomName" = JStr r →
      (∃ t, field d "timestamp" = JTime t) →
      transition st (in_messages r <[m := d]> st)
  | t_message_deleted (r m : string) (d : Doc) :
      message_doc st r m = Some d →
      transition st (in_messages r (delete m) st)
  | t_room_deleted (r : string) (room : Doc) :
      rooms st !! r = Some room →
      transition st (with_rooms (delete r) (in_messages r (λ _, ∅) st))
  | t_account_deleted (u : string) (roomSnap : Snapshot) :
      transition st
        (foldl (λ s (room : string * Doc), recursiveDelete room.1 s)
               (with_users (delete u) st) roomSnap).

(** The store after a sequence of frames, each handled with the
    collaborators as they answer at that time. *)
Definition run (fs : list (Env * option Inbound)) (st : Store) : Store :=
  foldl (λ s f, (on_message f.1 f.2 s).1.2) st fs.

(** What the handler keeps true of the database. *)
Record store_wf (st : Store) : Prop := mk_store_wf {
  wf_room_name : ∀ r room, rooms st !! r = Some room → r ≠ "";
  wf_room_owner : ∀ r room, rooms st !! r = Some room → field room "owner" = JUndefined;
  wf_room_password : ∀ r room,
    rooms st !! r = Some room →
    field room "password" = JNull ∨ ∃ h, field room "password" = JStr h ∧ h ≠ "";
  wf_message_room : ∀ r m d, message_doc st r m = Some d → is_Some (rooms st !! r);
  wf_message_key : ∀ r m d,
    message_doc st r m = Some d →
    m ≠ "" ∧ field d "id" = JStr m ∧ field d "roomName" = JStr r
    ∧ ∃ t, field d "timestamp" = JTime t
}.

(** ** The HTTP routes *)

Module Http.

(** What a step of a route can throw. *)
Inductive Failure : Type :=
  | InvalidPath        (* Firestore: a document path must be a non-empty string *)
  | NotFound           (* Firestore: [update] of a document that does not exist *)
  | TypeError          (* [fs.unlinkSync(undefined)] *)
  | ReferenceError     (* an identifier that is not in scope *)
  | UploadRejected     (* [cloudinary.uploader.upload] rejected *)
  | DestroyRejected    (* [cloudinary.uploader.destroy] rejected *)
  | UnlinkFailed.      (* [fs.unlinkSync] threw *)

(** What a route does to the outside: calls to the media store, removal
    of the upload's temporary file, [console.error] lines. *)
Inductive Effect : Type :=
  | Upload (path : option string) (folder : string) (resource_type : option string)
  | Unlink (path : string)
  | Destroy (public_id : JsVal) (resource_type : string)
  | ConsoleError (line : string).

(** [res.status(status).json(body)] *)
Record Response : Type := mkResponse {
  status : Z;
  body : Doc
}.

(** [res.json(body)] *)
Definition json (body : Doc) : Response := mkResponse 200 body.

(** The media store and the file system, as they answer. *)
Record Cloud : Type := mkCloud {
  (** [cloudinary.uploader.upload(path, {folder, resource_type})]: the
      [public_id] and [secure_url] of the result, or a rejection *)
  upload_result : option string → string → option string → option (string * string);
  (** whether [fs.unlinkSync(path)] returns *)
  unlink_ok : string → bool;
  (** whether [cloudinary.uploader.destroy(public_id, {resource_type})] resolves *)
  destroy_resolves : JsVal → string → bool
}.

(** A route: as [Task], with the effects and the failures of the routes. *)
Definition Route (A : Type) : Type := Store → (Failure + A) * Store * list Effect.

Definition ret {A} (a : A) : Route A := λ st, (inr a, st, []).
Definition throw {A} (e : Failure) : Route A := λ st, (inl e, st, []).

Definition bind {A B} (m : Route A) (k : A → Route B) : Route B :=
  λ st,
    match m st with
    | (inr a, st1, t1) =>
        match k a st1 with
        | (r, st2, t2) => (r, st2, t1 ++ t2)
        end
    | (inl e, st1, t1) => (inl e, st1, t1)
    end.

Definition try_catch {A} (m : Route A) (h : Failure → Route A) : Route A :=
  λ st,
    match m st with
    | (inr a, st1, t1) => (inr a, st1, t1)
    | (inl e, st1, t1) =>
        match h e st1 with
        | (r, st2, t2) => (r, st2, t1 ++ t2)
        end
    end.

#[global] Instance Route_ret : MRet Route := @ret.
#[global] Instance Route_bind : MBind Route := λ A B k m, bind m k.

Definition emit (e : Effect) : Route unit := λ st, (inr tt, st, [e]).
Definition read {A} (f : Store → A) : Route A := λ st, (inr (f st), st, []).
Definition write (f : Store → Store) : Route unit := λ st, (inr tt, f st, []).
Definition console_error (line : string) : Route unit := emit (ConsoleError line).

Section Routes.
Context (cloud : Cloud).

(** [await cloudinary.uploader.upload(path, { folder, resource_type })] *)
Definition upload (path : option string) (folder : string)
    (resource_type : option string) : Route (string * string) :=
  emit (Upload path folder resource_type);;
  match upload_result cloud path folder resource_type with
  | Some result => ret result
  | None => throw UploadRejected
  end.

(** [fs.unlinkSync(path)]; [path] is [undefined] when the request has no
    file. *)
Definition unlinkSync (path : option string) : Route unit :=
  match path with
  | None => throw TypeError
  | Some p => emit (Unlink p);; if unlink_ok cloud p then ret tt else throw UnlinkFailed
  end.

(** [await cloudinary.uploader.destroy(public_id, { resource_type })] *)
Definition destroy (public_id : JsVal) (resource_type : string) : Route unit :=
  emit (Destroy public_id resource_type);;
  if destroy_resolves cloud public_id resource_type then ret tt
  else throw DestroyRejected.

(** [db.collection('users').doc(path)] *)
Definition doc (path : JsVal) : Route string :=
  match path with
  | JStr s => if (s =? "")%string then throw InvalidPath else ret s
  | _ => throw InvalidPath
  end.

(** [await db.collection('users').doc(id).update(data)]: the fields of
    [data] replace those of the document, which has to exist. *)
Definition update (id : string) (data : Doc) : Route unit :=
  userDoc ← read (λ st, users st !! id);
  match userDoc with
  | None => throw NotFound
  | Some d => write (with_users <[id := data ∪ d]>)
  end.

(** The body of [POST /upload/img] and [POST /upload/audio], which differ
    in the folder, the resource type and the error line; [file] is
    [req.file?.path]. *)
Definition upload_route (line folder : string) (resource_type : option string)
    (file : option string) : Route Response :=
  try_catch
    (result ← upload file folder resource_type;
     unlinkSync file;;
     ret (json {[ "public_id" := JStr result.1; "url" := JStr result.2 ]}))
    (λ err,
       console_error line;;
       ret (mkResponse 500 {[ "type" := JStr "error";
                              "message" := JStr "Upload failed !" ]})).

(** [app.post('/upload/img', ...)] *)
Definition upload_img : option string → Route Response :=
  upload_route "Cloudinary image upload error:" "chat_app_images" None.

(** [app.post('/upload/audio', ...)] *)
Definition upload_audio : option string → Route Response :=
  upload_route "Cloudinary audio upload error:" "chat_app_audio" (Some "video").

(** [req.body] and [req.file?.path] of [POST /user/update]. *)
Record Request : Type := mkRequest {
  public_id : JsVal;
  username : JsVal;
  uid : JsVal;
  file : option string
}.

(** [if (req.file?.path)] *)
Definition has_file (req : Request) : bool :=
  match file req with
  | Some p => negb (p =? "")%string
  | None => false
  end.

(** The object [updateData]: [username] when it was sent, [avatar] and
    [public_id] when an avatar was uploaded. *)
Definition updateData (req : Request) (result : option (string * string)) : Doc :=
  (if truthy (username req) then <["username" := username req]> else id)
    (match result with
     | Some r => {[ "avatar" := JStr r.2; "public_id" := JStr r.1 ]}
     | None => ∅
     end).

(** [app.post('/user/update', ...)].  In the source [result] is a variable
    assigned between the upload and the removal of the temporary file, in
    one [try]; here the removal has its own handler, which keeps the
    result. *)
Definition user_update (req : Request) : Route Response :=
  try_catch
    (usernameQuery ←
       (if truthy (username req) then
          read (λ st, get_docs_where "username" (username req) (map_to_list (users st)))
        else ret []);
     match usernameQuery with
     | _ :: _ => ret (json {[ "message" := JStr "Username already used!" ]})
     | [] =>
         try_catch
           (if truthy (public_id req) then destroy (public_id req) "image" else ret tt)
           (* the handler binds [error] and reads [err.message] *)
           (λ error, throw ReferenceError);;
         result ←
           (if has_file req then
              try_catch
                (result ← upload (file req) "chat_app_avatar" None;
                 try_catch (unlinkSync (file req);; ret (Some result))
                   (λ error,
                      console_error "Cloudinary upload error:";; ret (Some result)))
                (λ error, console_error "Cloudinary upload error:";; ret None)
            else ret None);
         if decide (updateData req result = ∅) then
           ret (json {[ "type" := JBool false;
                        "message" := JStr "Nothing to update." ]})
         else
           userRef ← doc (uid req);
           update userRef (updateData req result);;
           ret (json {[ "type" := JBool true;
                        "message" := JStr "Profile updated." ]})
     end)
    (λ error,
       console_error "Update error:";;
       ret (mkResponse 500 {[ "type" := JBool false;
                              "message" := JStr "Update failed !" ]})).

End Routes.

(** No two profiles share a username. *)
Definition unique_usernames (st : Store) : Prop :=
  ∀ u1 u2 d1 d2,
    users st !! u1 = Some d1 →
    users st !! u2 = Some d2 →
    field d1 "username" = field d2 "username" →
    field d1 "username" ≠ JUndefined →
    u1 = u2.

(** A media store and a file system that accept everything; an upload
    gets the id and the address made of its folder and path. *)
Definition cloud_up : Cloud :=
  mkCloud (λ path folder _, Some (folder +:+ "/" +:+ default "" path,
                                  "https://res/" +:+ folder +:+ "/" +:+ default "" path))
          (λ _, true)
          (λ _ _, true).

(** The same with a media store that rejects every call. *)
Definition cloud_down : Cloud :=
  mkCloud (λ _ _ _, None) (λ _, true) (λ _ _, false).

End Http.

(** The answers of [POST /user/update]. *)
Definition update_failed : Http.Response :=
  Http.mkResponse 500 {[ "type" := JBool false; "message" := JStr "Update failed !" ]}.
Definition profile_updated : Http.Response :=
  Http.json {[ "type" := JBool true; "message" := JStr "Profile updated." ]}.
Definition nothing_to_update : Http.Response :=
  Http.json {[ "type" := JBool false; "message" := JStr "Nothing to update." ]}.

(** The result of the avatar upload of a request, if it has a file and
    the media store accepts it. *)
Definition avatar_result (cloud : Http.Cloud) (req : Http.Request) : option (string * string) :=
  if Http.has_file req
  then Http.upload_result cloud (Http.file req) "chat_app_avatar" None
  else None.

(** The effects of the deletion of the old avatar. *)
Definition old_avatar_effects (req : Http.Request) : list Http.Effect :=
  if truthy (Http.public_id req) then [Http.Destroy (Http.public_id req) "image"] else [].

(** The effects of the upload of the new avatar. *)
Definition avatar_effects (cloud : Http.Cloud) (req : Http.Request) : list Http.Effect :=
  if Http.has_file req then
    Http.Upload (Http.file req) "chat_app_avatar" None
    :: match Http.upload_result cloud (Http.file req) "chat_app_avatar" None, Http.file req with
       | Some _, Some p =>
           Http.Unlink p
           :: (if Http.unlink_ok cloud p then []
               else [Http.ConsoleError "Cloudinary upload error:"])
       | _, _ => [Http.ConsoleError "Cloudinary upload error:"]
       end
  else [].

(** One profile: "u1", called "ann", with an avatar. *)
Definition profile_store : Store :=
  mkStore ∅ ∅
    {[ "u1" := {[ "username" := JStr "ann";
                  "avatar" := JStr "https://res/chat_app_avatar/old";
                  "public_id" := JStr "chat_app_avatar/old" ]} ]}.

Ltac run_task :=
  unfold on_message, create, join, message, delete_message, delete_room,
    delete_account, sendRoomList, ws_send, clients_send, console_error,
    destroy, doc, data_field, hash, compare, deleteUser, try_catch, unawaited,
    emit, read, write, throw, mbind, Task_bind, bind, mret, Task_ret, ret.

(** ** JavaScript values *)

Lemma document_id_nonempty (s : string) : document_id s = true → s ≠ "".
Proof. intros H ->. vm_compute in H. discriminate. Qed.

Lemma eqb_nonempty (s : string) : s ≠ "" → (s =? "")%string = false.
Proof. intros H. by apply String.eqb_neq. Qed.

Lemma strict_eq_str (v : JsVal) (s : string) :
  strict_eq v (JStr s) = true ↔ v = JStr s.
Proof.
  destruct v; simpl; try (split; [discriminate | discriminate]).
  rewrite String.eqb_eq. split; congruence.
Qed.

Lemma strict_eq_eq (a b : JsVal) : strict_eq a b = true → a = b.
Proof.
  destruct a, b; simpl; try discriminate; try reflexivity.
  - intros H. by apply Bool.eqb_prop in H as ->.
  - intros H. by apply Z.eqb_eq in H as ->.
  - intros H. by apply String.eqb_eq in H as ->.
Qed.

Lemma strict_eq_undefined (v : JsVal) :
  strict_eq JUndefined v = true ↔ v = JUndefined.
Proof. destruct v; simpl; split; congruence. Qed.

Lemma resourceType_spec (t : JsVal) :
  resourceType t = if decide (t = JStr "audio") then "video" else "image".
Proof.
  unfold resourceType. case_decide as H.
  - by rewrite (proj2 (strict_eq_str _ _) H).
  - destruct (strict_eq t (JStr "audio")) eqn:E; [|done].
    by apply strict_eq_str in E.
Qed.

Lemma destroy_calls_app (t1 t2 : list Event) :
  destroy_calls (t1 ++ t2) = destroy_calls t1 ++ destroy_calls t2.
Proof. apply omap_app. Qed.

Lemma destroy_calls_media_cleanup (env : Env) (d : Doc) :
  destroy_calls (media_cleanup env d) = option_list (media_call d).
Proof.
  unfold media_cleanup, media_call. rewrite resourceType_spec.
  destruct (truthy _); [|done]. simpl.
  by destruct (destroy_resolves _ _ _).
Qed.

(** ** The media cascade *)

Lemma deleteMediaByMessages_run (env : Env) (l : Snapshot) (st : Store) :
  deleteMediaByMessages env l st
  = (Normal tt, st, flat_map (λ msg, media_cleanup env msg.2) l).
Proof.
  induction l as [|msg l IH]; [done|].
  simpl. run_task. unfold media_cleanup at 1.
  destruct (truthy (field msg.2 "public_id")); simpl.
  - destruct (destroy_resolves _ _ _); simpl; by rewrite IH.
  - by rewrite IH.
Qed.

(** C5.  [deleteMediaByMessages] completes normally on every list of
    messages, in every store and with every behaviour of the media store.
    It leaves the store as it was; its trace is, message by message, nothing
    for a message without a media id and otherwise the destroy call, followed
    by the error line when that call failed. *)
Theorem deleteMediaByMessages_never_raises (env : Env) (l : Snapshot) (st : Store) :
  deleteMediaByMessages env l st
  = (Normal tt, st,
     flat_map
       (λ msg : string * Doc,
          if truthy (field msg.2 "public_id") then
            CloudinaryDestroy (field msg.2 "public_id") (resourceType (field msg.2 "type"))
            :: (if destroy_resolves env (field msg.2 "public_id")
                                    (resourceType (field msg.2 "type"))
                then [] else [ConsoleError (FailedToDelete (field msg.2 "public_id"))])
          else [])
       l).
Proof. apply deleteMediaByMessages_run. Qed.

(** ** Creating and joining rooms *)

(** The frames of the join flow: an error tagged [join] or the list of
    messages. *)
Lemma join_frames_tagged (env : Env) (st : Store) (data : Inbound) (e : Envelope) :
  action data = JStr "join" →
  WsSend e ∈ (on_message env (Some data) st).2 →
  (∃ m, e = Error (Some TagJoin) m) ∨ (∃ r msgs, e = JoinSuccess r msgs).
Proof.
  intros Ha. run_task. rewrite Ha. simpl.
  destruct (roomName data) as [| |b|n|s|t]; simpl;
    try (intros Hin; apply list_elem_of_singleton in Hin; discriminate).
  destruct (s =? "")%string; simpl;
    [intros Hin; apply list_elem_of_singleton in Hin; discriminate|].
  destruct (rooms st !! s) as [room|]; simpl;
    [|intros [= ->]%list_elem_of_singleton; left; by eexists].
  destruct (truthy (field room "password")); simpl.
  - destruct (password data) as [| |b|n|p|t]; simpl;
      try (intros Hin; apply list_elem_of_singleton in Hin; discriminate).
    destruct (field room "password") as [| |b|n|h|t]; simpl;
      try (intros Hin; apply list_elem_of_singleton in Hin; discriminate).
    destruct (bcrypt_compare env p h); simpl;
      intros [= ->]%list_elem_of_singleton; [right|left]; by repeat eexists.
  - intros [= ->]%list_elem_of_singleton. right. by repeat eexists.
Qed.

(** C8.  A create frame that names an existing room changes nothing in the
    store, so the creator and the password of the room stay as they were;
    the only event is one error frame to the sender, tagged [create].  No
    frame of the join flow carries that tag. *)
Theorem create_existing_room_untouched
    (env : Env) (st : Store) (data : Inbound) (r : string) (room : Doc) :
  action data = JStr "create" →
  roomName data = JStr r →
  r ≠ "" →
  rooms st !! r = Some room →
  on_message env (Some data) st
  = (Normal tt, st, [WsSend (Error (Some TagCreate) "Room already exist !")])
  ∧ rooms (on_message env (Some data) st).1.2 !! r = Some room
  ∧ (∀ env' st' data' e,
       action data' = JStr "join" →
       WsSend e ∈ (on_message env' (Some data') st').2 →
       ∀ m, e ≠ Error (Some TagCreate) m).
Proof.
  intros Ha Hr Hne Hroom.
  assert (Hrun : on_message env (Some data) st
                 = (Normal tt, st, [WsSend (Error (Some TagCreate) "Room already exist !")])).
  { run_task. rewrite Ha, Hr. simpl. rewrite (eqb_nonempty r Hne). simpl.
    by rewrite Hroom. }
  split; [done|]. split; [by rewrite Hrun|].
  intros env' st' data' e Ha' Hin m ->.
  by destruct (join_frames_tagged env' st' data' _ Ha' Hin) as [[m' ?]|(r' & msgs & ?)].
Qed.

Lemma create_existing_room_untouched_witness :
  on_message env_up
    (Some (frame (JStr "create") (JStr "lobby") (JStr "u2") (JStr "pw") JUndefined))
    lobby_store
  = (Normal tt, lobby_store, [WsSend (Error (Some TagCreate) "Room already exist !")]).
Proof.
  apply (create_existing_room_untouched env_up lobby_store _ "lobby"
           {[ "createdBy" := JStr "u1"; "password" := JNull;
              "createdAt" := JTime 1700000000 ]});
    [reflexivity | reflexivity | discriminate | vm_compute; reflexivity].
Defined.



(** C10.  On a room with a password, a join frame without the [password]
    field gets no frame: the compare call throws, the handler's outer catch
    writes one error line and the store is unchanged.  A join frame with a
    non-empty string that the stored hash does not verify gets the error
    frame "Incorrect password." tagged [join]. *)
Theorem join_without_password_is_dropped
    (env : Env) (st : Store) (data : Inbound) (r : string) (room : Doc) :
  action data = JStr "join" →
  roomName data = JStr r →
  r ≠ "" →
  rooms st !! r = Some room →
  truthy (field room "password") = true →
  (password data = JUndefined →
   on_message env (Some data) st
   = (Normal tt, st, [ConsoleError (ErrorHandlingMessage BcryptError)]))
  ∧ (∀ p h, password data = JStr p → p ≠ "" →
     field room "password" = JStr h → bcrypt_compare env p h = false →
     on_message env (Some data) st
     = (Normal tt, st, [WsSend (Error (Some TagJoin) "Incorrect password.")])).
Proof.
  intros Ha Hr Hne Hroom Hpw.
  split; [intros Hp | intros p h Hp Hpne Hh Hcmp]; run_task;
    rewrite Ha, Hr; simpl; rewrite (eqb_nonempty r Hne); simpl;
    rewrite Hroom, Hpw, Hp; simpl.
  - done.
  - by rewrite Hh, Hcmp.
Qed.

Lemma join_without_password_is_dropped_witness :
  on_message env_up
    (Some (frame (JStr "join") (JStr "vault") JUndefined JUndefined JUndefined))
    vault_store
  = (Normal tt, vault_store, [ConsoleError (ErrorHandlingMessage BcryptError)])
  ∧ on_message env_up
      (Some (frame (JStr "join") (JStr "vault") JUndefined (JStr "guess") JUndefined))
      vault_store
    = (Normal tt, vault_store, [WsSend (Error (Some TagJoin) "Incorrect password.")]).
Proof.
  split.
  - apply (join_without_password_is_dropped env_up vault_store _ "vault"
             {[ "createdBy" := JStr "u1"; "password" := JStr "$2b$10$s3cret";
                "createdAt" := JTime 1700000000 ]});
      [reflexivity | reflexivity | discriminate | vm_compute; reflexivity
      | vm_compute; reflexivity | reflexivity].
  - apply (join_without_password_is_dropped env_up vault_store _ "vault"
             {[ "createdBy" := JStr "u1"; "password" := JStr "$2b$10$s3cret";
                "createdAt" := JTime 1700000000 ]})
      with (p := "guess") (h := "$2b$10$s3cret");
      [reflexivity | reflexivity | discriminate | vm_compute; reflexivity
      | vm_compute; reflexivity | reflexivity | discriminate
      | vm_compute; reflexivity | vm_compute; reflexivity].
Defined.

(** A create frame without a usable room name is dropped: nothing is
    written and no frame is sent, whatever [uid] is. *)
Lemma create_without_roomName_silent (env : Env) (st : Store) (data : Inbound) :
  action data = JStr "create" →
  truthy (roomName data) = false →
  ∃ tr, on_message env (Some data) st = (Normal tt, st, tr) ∧ frames tr = [].
Proof.
  intros Ha Hr. run_task. rewrite Ha. simpl. rewrite Hr. simpl.
  destruct (truthy (uid data)); simpl; [|eexists; split; reflexivity].
  destruct (roomName data) as [| |b|n|s|t]; simpl in *;
    try discriminate; try (eexists; split; reflexivity).
  apply negb_false_iff in Hr. rewrite Hr. eexists; split; reflexivity.
Qed.

(** A create frame with a room name the store does not have (the id of a
    document) is carried out when [uid] is missing: the guard lets it pass.
    The room is written, [create-success] goes to the sender and then the
    new room list to every client. *)
Lemma create_without_uid_run (env : Env) (st : Store) (data : Inbound) (r : string) :
  action data = JStr "create" →
  roomName data = JStr r →
  document_id r = true →
  truthy (uid data) = false →
  password data = JUndefined →
  rooms st !! r = None →
  let st' :=
    with_rooms
      <[r := set_field "password" JNull
               (set_field "createdBy" (uid data)
                  (set_field "createdAt" (JTime (server_timestamp env)) ∅))]> st in
  on_message env (Some data) st
  = (Normal tt, st',
     [WsSend (CreateSuccess (JStr r)); ClientsSend (RoomsUpdated (room_list st'))]).
Proof.
  intros Ha Hr Hne%document_id_nonempty Hu Hp Hroom. run_task. rewrite Ha, Hr, Hu, Hp. simpl.
  rewrite (eqb_nonempty r Hne). simpl. by rewrite Hroom.
Qed.

(** C3.  The guard of the create flow returns only when [roomName] and
    [uid] are both missing.  A create frame with a room name and no [uid],
    on a store without that room, writes the room (without a [createdBy]
    field), sends [create-success] to the sender and the room list to every
    client. *)
Theorem create_without_uid_writes_room :
  on_message env_up
    (Some (frame (JStr "create") (JStr "lobby") JUndefined JUndefined JUndefined))
    no_store
  = (Normal tt,
     mkStore {[ "lobby" := {[ "password" := JNull; "createdAt" := JTime 1700000000 ]} ]}
             ∅ ∅,
     [WsSend (CreateSuccess (JStr "lobby"));
      ClientsSend (RoomsUpdated [mkRoomInfo "lobby" false JUndefined])]).
Proof. vm_compute. reflexivity. Qed.

(** ** Deleting rooms *)

(** The create flow never writes an [owner] field. *)
Lemma create_writes_no_owner (env : Env) (st : Store) (data : Inbound) (r : string) :
  action data = JStr "create" →
  (∀ room, rooms st !! r = Some room → field room "owner" = JUndefined) →
  ∀ room, rooms (after env data st) !! r = Some room → field room "owner" = JUndefined.
Proof.
  intros Ha Hst room. unfold after. run_task. rewrite Ha. simpl.
  destruct (negb (truthy (roomName data)) && negb (truthy (uid data))); simpl; [apply Hst|].
  destruct (roomName data) as [| |b|n|s|t]; simpl; try apply Hst.
  destruct (s =? "")%string; simpl; [apply Hst|].
  destruct (rooms st !! s) eqn:Hs; simpl; [apply Hst|].
  assert (Hw : ∀ p,
    rooms (with_rooms <[s := set_field "password" p
             (set_field "createdBy" (uid data)
                (set_field "createdAt" (JTime (server_timestamp env)) ∅))]> st) !! r
      = Some room → field room "owner" = JUndefined).
  { intros p. simpl. destruct (decide (s = r)) as [->|Hne].
    - rewrite lookup_insert_eq. intros [= <-]. unfold field.
      destruct p, (uid data); simpl; by simplify_map_eq.
    - rewrite lookup_insert_ne by done. apply Hst. }
  destruct (truthy (password data)); simpl.
  - destruct (password data); simpl; try apply Hst. apply Hw.
  - apply Hw.
Qed.

(** A room without an [owner] field is deleted for no [uid] that the
    frame carries: the reply is the permission error. *)
Lemma delete_room_without_owner (env : Env) (st : Store) (data : Inbound)
    (r : string) (room : Doc) :
  action data = JStr "delete-room" →
  roomName data = JStr r →
  r ≠ "" →
  rooms st !! r = Some room →
  field room "owner" = JUndefined →
  uid data ≠ JUndefined →
  on_message env (Some data) st
  = (Normal tt, st, [WsSend (Error None "Only the creator can delete this room.")]).
Proof.
  intros Ha Hr Hne Hroom Hown Hu. run_task. rewrite Ha, Hr. simpl.
  rewrite (eqb_nonempty r Hne). simpl. rewrite Hroom, Hown.
  destruct (strict_eq JUndefined (uid data)) eqn:E; [|done].
  by apply strict_eq_undefined in E.
Qed.

(** C1.  The delete-room flow compares [uid] with the [owner] field of the
    room, a field the create flow does not write.  In the store where "u1"
    has created "lobby" and sent two messages, the delete-room frame of "u1"
    gets the permission error and deletes nothing, and the delete-room frame
    without [uid] deletes the room and its messages. *)
Theorem delete_room_compares_owner_field :
  field (default ∅ (rooms chat_store !! "lobby")) "createdBy" = JStr "u1"
  ∧ on_message env_up
      (Some (frame (JStr "delete-room") (JStr "lobby") (JStr "u1") JUndefined JUndefined))
      chat_store
    = (Normal tt, chat_store,
       [WsSend (Error None "Only the creator can delete this room.")])
  ∧ on_message env_up
      (Some (frame (JStr "delete-room") (JStr "lobby") JUndefined JUndefined JUndefined))
      chat_store
    = (Normal tt, mkStore ∅ {[ "lobby" := ∅ ]} ∅,
       [CloudinaryDestroy (JStr "chat_app_audio/a1") "video";
        ClientsSend (RoomsUpdated [])]).
Proof. vm_compute. done. Qed.

(** ** Deleting an account *)

(** Whatever the store, a rejected avatar deletion ends the
    delete-account flow: nothing is written and no frame is sent. *)
Lemma delete_account_avatar_failure_run (env : Env) (st : Store) (data : Inbound)
    (u : string) (profile : Doc) :
  action data = JStr "delete-account" →
  uid data = JStr u →
  u ≠ "" →
  auth_delete_user env (JStr u) ≠ AuthFailure →
  users st !! u = Some profile →
  truthy (field profile "public_id") = true →
  destroy_resolves env (field profile "public_id") "image" = false →
  on_message env (Some data) st
  = (Normal tt, st,
     [CloudinaryDestroy (field profile "public_id") "image";
      ConsoleError (TotalDeleteFailed ReferenceError)]).
Proof.
  intros Ha Hu Hne Hauth Hprof Hav Hrej. run_task. rewrite Ha, Hu. simpl.
  rewrite (eqb_nonempty u Hne). simpl.
  destruct (auth_delete_user env (JStr u)); [| |done]; simpl;
    by rewrite Hprof, Hav, Hrej.
Qed.

(** With a media store that accepts the call, the same frame runs the
    whole flow. *)
Lemma delete_account_with_media_up :
  on_message env_up
    (Some (frame (JStr "delete-account") JUndefined (JStr "u1") JUndefined JUndefined))
    account_store
  = (Normal tt, no_store,
     [CloudinaryDestroy (JStr "chat_app_avatar/u1") "image";
      CloudinaryDestroy (JStr "chat_app_audio/a1") "video";
      WsSend DeleteSuccess;
      ClientsSend (RoomsUpdated [])]).
Proof. vm_compute. reflexivity. Qed.

(** C2.  In the delete-account flow the handler of a failed avatar deletion
    reads an identifier that is not in scope, so the failure leaves the
    inner [try] as a [ReferenceError] and ends the flow in its outer catch.
    With a media store that rejects the call, the delete-account frame of
    "u1" leaves the profile, the room and its messages in place and sends no
    frame. *)
Theorem delete_account_aborts_on_avatar_failure :
  on_message env_media_down
    (Some (frame (JStr "delete-account") JUndefined (JStr "u1") JUndefined JUndefined))
    account_store
  = (Normal tt, account_store,
     [CloudinaryDestroy (JStr "chat_app_avatar/u1") "image";
      ConsoleError (TotalDeleteFailed ReferenceError)])
  ∧ is_Some (users account_store !! "u1")
  ∧ is_Some (rooms account_store !! "lobby").
Proof. vm_compute. split_and!; [done | by eexists | by eexists]. Qed.

(** ** Deleting a message *)

Lemma message_doc_in_messages_delete (st : Store) (r m : string) :
  message_doc (in_messages r (delete m) st) r m = None.
Proof.
  unfold message_doc, messages_of, in_messages. simpl.
  rewrite lookup_insert_eq. simpl. apply lookup_delete_eq.
Qed.

Lemma delete_message_run (env : Env) (st : Store) (data : Inbound)
    (r m : string) (d : Doc) :
  action data = JStr "delete-message" →
  roomName data = JStr r →
  msgId data = JStr m →
  r ≠ "" →
  m ≠ "" →
  message_doc st r m = Some d →
  on_message env (Some data) st
  = if strict_eq (field d "userId") (uid data)
    then (Normal tt, in_messages r (delete m) st,
          media_cleanup env d ++ [WsSend (MessageDeleted (JStr m))])
    else (Normal tt, st, []).
Proof.
  intros Ha Hr Hm Hrne Hmne Hd. run_task. rewrite Ha, Hr, Hm. simpl.
  rewrite (eqb_nonempty r Hrne), (eqb_nonempty m Hmne). simpl. rewrite Hd. simpl.
  destruct (strict_eq _ _); [|done]. simpl. unfold media_cleanup.
  destruct (truthy _); simpl; [|done].
  by destruct (destroy_resolves _ _ _).
Qed.

(** C7.  For a delete-message frame that names a stored message: when
    [uid] is the [userId] of the message, the message is deleted and the only
    frame is [message-deleted] with the id, sent to the sender; for every
    other [uid] the store is unchanged, the message is still there and the
    trace is empty. *)
Theorem delete_message_author_only (env : Env) (st : Store) (data : Inbound)
    (r m : string) (d : Doc) :
  action data = JStr "delete-message" →
  roomName data = JStr r →
  msgId data = JStr m →
  r ≠ "" →
  m ≠ "" →
  message_doc st r m = Some d →
  (strict_eq (field d "userId") (uid data) = true →
   ∃ st' tr,
     on_message env (Some data) st = (Normal tt, st', tr)
     ∧ message_doc st' r m = None
     ∧ frames tr = [WsSend (MessageDeleted (JStr m))])
  ∧ (strict_eq (field d "userId") (uid data) = false →
     on_message env (Some data) st = (Normal tt, st, [])
     ∧ message_doc st r m = Some d).
Proof.
  intros Ha Hr Hm Hrne Hmne Hd.
  rewrite (delete_message_run env st data r m d Ha Hr Hm Hrne Hmne Hd).
  split; intros ->; [|done].
  eexists _, _. split; [done|]. split; [apply message_doc_in_messages_delete|].
  unfold frames. rewrite filter_app. unfold media_cleanup.
  destruct (truthy _); [|done].
  by destruct (destroy_resolves _ _ _).
Qed.

Lemma delete_message_author_only_witness :
  (∃ st' tr,
     on_message env_up
       (Some (frame (JStr "delete-message") (JStr "lobby") (JStr "u1") JUndefined
                    (JStr "1700000000000")))
       chat_store
     = (Normal tt, st', tr)
     ∧ message_doc st' "lobby" "1700000000000" = None
     ∧ frames tr = [WsSend (MessageDeleted (JStr "1700000000000"))])
  ∧ (on_message env_up
       (Some (frame (JStr "delete-message") (JStr "lobby") (JStr "u2") JUndefined
                    (JStr "1700000000000")))
       chat_store
     = (Normal tt, chat_store, [])
     ∧ message_doc chat_store "lobby" "1700000000000"
       = Some (default ∅ (message_doc chat_store "lobby" "1700000000000"))).
Proof.
  split.
  - apply (delete_message_author_only env_up chat_store _ "lobby" "1700000000000"
             (default ∅ (message_doc chat_store "lobby" "1700000000000")));
      [reflexivity | reflexivity | reflexivity | discriminate | discriminate
      | vm_compute; reflexivity | vm_compute; reflexivity].
  - apply (delete_message_author_only env_up chat_store _ "lobby" "1700000000000"
             (default ∅ (message_doc chat_store "lobby" "1700000000000")));
      [reflexivity | reflexivity | reflexivity | discriminate | discriminate
      | vm_compute; reflexivity | vm_compute; reflexivity].
Defined.

(** ** Snapshots *)

Lemma get_docs_Permutation (c : Snapshot) : get_docs c ≡ₚ c.
Proof. apply merge_sort_Permutation. Qed.

Lemma elem_of_messages_collection (st : Store) (r m : string) (d : Doc) :
  (m, d) ∈ messages_collection st r ↔ message_doc st r m = Some d.
Proof. unfold messages_collection, message_doc. apply elem_of_map_to_list. Qed.

Lemma NoDup_messages_collection (st : Store) (r : string) :
  NoDup (messages_collection st r).*1.
Proof. apply NoDup_fst_map_to_list. Qed.

Lemma NoDup_get_docs_where (k : string) (v : JsVal) (c : gmap string Doc) :
  NoDup (get_docs_where k v (map_to_list c)).*1.
Proof.
  unfold get_docs_where. rewrite get_docs_Permutation.
  eapply sublist_NoDup; [apply (NoDup_fst_map_to_list c)|].
  apply fmap_sublist, sublist_filter.
Qed.

Lemma messages_collection_recursiveDelete_ne (st : Store) (r r' : string) :
  r ≠ r' →
  messages_collection (recursiveDelete r st) r' = messages_collection st r'.
Proof.
  intros Hne. unfold messages_collection, messages_of, recursiveDelete. simpl.
  by rewrite lookup_delete_ne.
Qed.

(** ** The cascades *)

Lemma delete_room_run (env : Env) (st : Store) (data : Inbound)
    (r : string) (room : Doc) :
  action data = JStr "delete-room" →
  roomName data = JStr r →
  r ≠ "" →
  rooms st !! r = Some room →
  strict_eq (field room "owner") (uid data) = true →
  let snap := get_docs (messages_collection st r) in
  let st' :=
    with_rooms (delete r)
      (in_messages r (λ c, foldr (λ d : string * Doc, delete d.1) c snap) st) in
  on_message env (Some data) st
  = (Normal tt, st',
     flat_map (λ msg, media_cleanup env msg.2) snap
     ++ [ClientsSend (RoomsUpdated (room_list st'))]).
Proof.
  intros Ha Hr Hne Hroom Hown. run_task. rewrite Ha, Hr. simpl.
  rewrite (eqb_nonempty r Hne). simpl. rewrite Hroom, Hown. simpl.
  by rewrite deleteMediaByMessages_run.
Qed.

Lemma flat_map_ext_elem {A B} (f g : A → list B) (l : list A) :
  (∀ x, x ∈ l → f x = g x) → flat_map f l = flat_map g l.
Proof.
  induction l as [|x l IH]; intros H; [done|]. simpl.
  rewrite (H x) by left. rewrite IH; [done|].
  intros y Hy. apply H. by right.
Qed.

Lemma delete_rooms_run (env : Env) (roomSnap : Snapshot) (st : Store) :
  NoDup roomSnap.*1 →
  delete_rooms env roomSnap st
  = (Normal tt,
     foldl (λ s (room : string * Doc), recursiveDelete room.1 s) st roomSnap,
     flat_map
       (λ room : string * Doc,
          flat_map (λ msg : string * Doc, media_cleanup env msg.2)
                   (get_docs (messages_collection st room.1)))
       roomSnap).
Proof.
  revert st. induction roomSnap as [|room rest IH]; intros st Hnd; [done|].
  apply NoDup_cons in Hnd as [Hnotin Hnd].
  simpl. run_task. rewrite deleteMediaByMessages_run. simpl.
  rewrite (IH _ Hnd). do 2 f_equal.
  apply flat_map_ext_elem. intros room' Hin.
  rewrite messages_collection_recursiveDelete_ne; [done|].
  intros Heq. apply Hnotin. rewrite Heq. by apply list_elem_of_fmap_2.
Qed.

Lemma delete_account_run (env : Env) (st : Store) (data : Inbound)
    (u : string) (profile : Doc) :
  action data = JStr "delete-account" →
  uid data = JStr u →
  u ≠ "" →
  auth_delete_user env (JStr u) ≠ AuthFailure →
  users st !! u = Some profile →
  (truthy (field profile "public_id") = true →
   destroy_resolves env (field profile "public_id") "image" = true) →
  let roomSnap := get_docs_where "createdBy" (JStr u) (rooms_collection st) in
  let st' :=
    foldl (λ s (room : string * Doc), recursiveDelete room.1 s)
          (with_users (delete u) st) roomSnap in
  on_message env (Some data) st
  = (Normal tt, st',
     (if truthy (field profile "public_id")
      then [CloudinaryDestroy (field profile "public_id") "image"] else [])
     ++ flat_map
          (λ room : string * Doc,
             flat_map (λ msg : string * Doc, media_cleanup env msg.2)
                      (get_docs (messages_collection st room.1)))
          roomSnap
     ++ [WsSend DeleteSuccess; ClientsSend (RoomsUpdated (room_list st'))]).
Proof.
  intros Ha Hu Hne Hauth Hprof Hav roomSnap st'. run_task. rewrite Ha, Hu. simpl.
  rewrite (eqb_nonempty u Hne). simpl.
  assert (Hrooms :
    delete_rooms env roomSnap (with_users (delete u) st)
    = (Normal tt, st',
       flat_map
         (λ room : string * Doc,
            flat_map (λ msg : string * Doc, media_cleanup env msg.2)
                     (get_docs (messages_collection st room.1)))
         roomSnap)).
  { rewrite delete_rooms_run by apply NoDup_get_docs_where. reflexivity. }
  destruct (auth_delete_user env (JStr u)); [| |done]; simpl;
    rewrite Hprof; simpl;
    (destruct (truthy (field profile "public_id")); simpl;
     [rewrite Hav by done; simpl|]);
    change (rooms_collection (with_users (delete u) st)) with (rooms_collection st);
    fold roomSnap; rewrite Hrooms; reflexivity.
Qed.

Lemma destroy_calls_cascade (env : Env) (l : Snapshot) :
  destroy_calls (flat_map (λ msg : string * Doc, media_cleanup env msg.2) l)
  = omap (λ msg : string * Doc, media_call msg.2) l.
Proof.
  induction l as [|msg l IH]; [done|].
  simpl flat_map. rewrite destroy_calls_app, destroy_calls_media_cleanup, IH.
  simpl. by destruct (media_call msg.2).
Qed.

Lemma destroy_calls_cascades (env : Env) (st : Store) (roomSnap : Snapshot) :
  destroy_calls
    (flat_map
       (λ room : string * Doc,
          flat_map (λ msg : string * Doc, media_cleanup env msg.2)
                   (get_docs (messages_collection st room.1)))
       roomSnap)
  = flat_map
      (λ room : string * Doc,
         omap (λ msg : string * Doc, media_call msg.2)
              (get_docs (messages_collection st room.1)))
      roomSnap.
Proof.
  induction roomSnap as [|room rest IH]; [done|].
  simpl. by rewrite destroy_calls_app, destroy_calls_cascade, IH.
Qed.

(** C4.  Every deletion of a message that carries a media id makes one call
    to the media store for that id, with category "video" when the [type] of
    the message is "audio" and "image" otherwise ([media_call]), and a
    message without a media id makes none.  This holds for the cascade
    function on every list, for a delete-message frame of the author, for an
    authorised delete-room frame (over the messages of the room) and for a
    delete-account frame that reaches the cascade (over the messages of
    every room created by the account, after the call for the avatar). *)
Theorem media_destroy_once_per_message (env : Env) (st : Store) :
  (∀ l : Snapshot,
     destroy_calls (deleteMediaByMessages env l st).2
     = omap (λ msg : string * Doc, media_call msg.2) l)
  ∧ (∀ data r m d,
       action data = JStr "delete-message" →
       roomName data = JStr r → msgId data = JStr m → r ≠ "" → m ≠ "" →
       message_doc st r m = Some d →
       strict_eq (field d "userId") (uid data) = true →
       destroy_calls (on_message env (Some data) st).2 = option_list (media_call d))
  ∧ (∀ data r room,
       action data = JStr "delete-room" →
       roomName data = JStr r → r ≠ "" →
       rooms st !! r = Some room →
       strict_eq (field room "owner") (uid data) = true →
       destroy_calls (on_message env (Some data) st).2
       = omap (λ msg : string * Doc, media_call msg.2)
              (get_docs (messages_collection st r)))
  ∧ (∀ data u profile,
       action data = JStr "delete-account" →
       uid data = JStr u → u ≠ "" →
       auth_delete_user env (JStr u) ≠ AuthFailure →
       users st !! u = Some profile →
       (truthy (field profile "public_id") = true →
        destroy_resolves env (field profile "public_id") "image" = true) →
       destroy_calls (on_message env (Some data) st).2
       = (if truthy (field profile "public_id")
          then [(field profile "public_id", "image")] else [])
         ++ flat_map
              (λ room : string * Doc,
                 omap (λ msg : string * Doc, media_call msg.2)
                      (get_docs (messages_collection st room.1)))
              (get_docs_where "createdBy" (JStr u) (rooms_collection st)))
  ∧ (∀ r, get_docs (messages_collection st r) ≡ₚ map_to_list (messages_of st r)).
Proof.
  split_and!.
  - intros l. rewrite deleteMediaByMessages_run. apply destroy_calls_cascade.
  - intros data r m d Ha Hr Hm Hrne Hmne Hd Hu.
    rewrite (delete_message_run env st data r m d Ha Hr Hm Hrne Hmne Hd), Hu.
    simpl. rewrite destroy_calls_app, destroy_calls_media_cleanup. simpl.
    apply app_nil_r.
  - intros data r room Ha Hr Hne Hroom Hown.
    rewrite (delete_room_run env st data r room Ha Hr Hne Hroom Hown).
    simpl. rewrite destroy_calls_app, destroy_calls_cascade. simpl.
    apply app_nil_r.
  - intros data u profile Ha Hu Hne Hauth Hprof Hav.
    rewrite (delete_account_run env st data u profile Ha Hu Hne Hauth Hprof Hav).
    simpl. rewrite !destroy_calls_app, destroy_calls_cascades. simpl.
    rewrite app_nil_r. by destruct (truthy (field profile "public_id")).
  - intros r. apply get_docs_Permutation.
Qed.

Lemma media_destroy_once_per_message_witness :
  destroy_calls
    (on_message env_media_down
       (Some (frame (JStr "delete-message") (JStr "lobby") (JStr "u1") JUndefined
                    (JStr "1700000000000")))
       account_store).2
  = [(JStr "chat_app_audio/a1", "video")]
  ∧ destroy_calls
      (on_message env_up
         (Some (frame (JStr "delete-room") (JStr "lobby") JUndefined JUndefined JUndefined))
         account_store).2
    = [(JStr "chat_app_audio/a1", "video")]
  ∧ destroy_calls
      (on_message env_up
         (Some (frame (JStr "delete-account") JUndefined (JStr "u1") JUndefined JUndefined))
         account_store).2
    = [(JStr "chat_app_avatar/u1", "image"); (JStr "chat_app_audio/a1", "video")].
Proof.
  split_and!.
  - rewrite (proj1 (proj2 (media_destroy_once_per_message env_media_down account_store))
               _ "lobby" "1700000000000"
               (default ∅ (message_doc account_store "lobby" "1700000000000")));
      [vm_compute; reflexivity | reflexivity | reflexivity | reflexivity
      | discriminate | discriminate | vm_compute; reflexivity | vm_compute; reflexivity].
  - rewrite (proj1 (proj2 (proj2 (media_destroy_once_per_message env_up account_store)))
               _ "lobby" (default ∅ (rooms account_store !! "lobby")));
      [vm_compute; reflexivity | reflexivity | reflexivity | discriminate
      | vm_compute; reflexivity | vm_compute; reflexivity].
  - rewrite (proj1 (proj2 (proj2 (proj2
               (media_destroy_once_per_message env_up account_store))))
               _ "u1" (default ∅ (users account_store !! "u1")));
      [vm_compute; reflexivity | reflexivity | reflexivity | discriminate
      | discriminate | vm_compute; reflexivity | reflexivity].
Defined.

(** ** The order of a joined room *)

Lemma value_compare_antisym (a b : JsVal) :
  value_compare b a = CompOpp (value_compare a b).
Proof.
  destruct a, b; simpl; try reflexivity.
  - by destruct b, b0.
  - apply Z.compare_antisym.
  - rewrite (String.compare_antisym s s0). by destruct (String.compare s0 s).
  - apply Z.compare_antisym.
Qed.

#[global] Instance by_field_total (k : string) : Total (by_field k).
Proof.
  intros x y. unfold by_field.
  rewrite (value_compare_antisym (field x.2 k) (field y.2 k)).
  destruct (value_compare (field x.2 k) (field y.2 k)); simpl; auto.
  apply String.leb_total.
Qed.

Lemma by_field_timestamp_le (x y : string * Doc) :
  by_field "timestamp" x y → timestamp_le x.2 y.2.
Proof.
  unfold by_field, timestamp_le.
  by destruct (value_compare (field x.2 "timestamp") (field y.2 "timestamp")).
Qed.

Lemma get_docs_ordered_Sorted (c : Snapshot) :
  Sorted timestamp_le (get_docs_ordered "timestamp" c).*2.
Proof.
  apply (Sorted_fmap _ (by_field "timestamp")); [apply by_field_timestamp_le|].
  apply (Sorted_merge_sort _).
Qed.

Lemma get_docs_ordered_Permutation (k : string) (c : Snapshot) :
  get_docs_ordered k c ≡ₚ filter (λ kv : string * Doc, field kv.2 k ≠ JUndefined) c.
Proof. apply merge_sort_Permutation. Qed.

Lemma stamped_filter (st : Store) (r : string) :
  stamped st →
  filter (λ kv : string * Doc, field kv.2 "timestamp" ≠ JUndefined)
         (messages_collection st r)
  = messages_collection st r.
Proof.
  intros Hst.
  assert (Hall : ∀ kv, kv ∈ messages_collection st r →
                       field kv.2 "timestamp" ≠ JUndefined).
  { intros [m d] Hin.
    apply elem_of_messages_collection, Hst in Hin as [t Ht]. simpl. by rewrite Ht. }
  induction (messages_collection st r) as [|kv l IH]; [done|].
  rewrite filter_cons_True by (apply Hall; left).
  f_equal. apply IH. intros kv' Hin. apply Hall. by right.
Qed.

Lemma Sorted_timestamps (msgs : list Doc) :
  Forall (λ d, ∃ t, field d "timestamp" = JTime t) msgs →
  Sorted timestamp_le msgs →
  ∃ times, (λ d, field d "timestamp") <$> msgs = JTime <$> times
           ∧ StronglySorted Z.le times.
Proof.
  intros Hall Hs.
  assert (∃ times, (λ d, field d "timestamp") <$> msgs = JTime <$> times
                   ∧ Sorted Z.le times) as (times & Heq & Hsorted).
  { induction Hs as [|d msgs Hs IH Hhd]; [by exists []|].
    apply Forall_cons in Hall as [[t Ht] Hall].
    destruct (IH Hall) as (times & Heq & Hsorted).
    exists (t :: times). split; [csimpl; by rewrite Ht, Heq|].
    constructor; [done|].
    destruct Hhd as [|d' msgs' Hle]; destruct times as [|t' times'];
      try discriminate; constructor.
    csimpl in Heq. injection Heq as Hd' _.
    unfold timestamp_le in Hle. rewrite Ht, Hd' in Hle. simpl in Hle.
    by apply Z.compare_le_iff. }
  exists times. split; [done|].
  apply Sorted.Sorted_StronglySorted; [|done].
  intros x y z. apply Z.le_trans.
Qed.

Lemma join_run (env : Env) (st : Store) (data : Inbound) (r : string) (room : Doc) :
  action data = JStr "join" →
  roomName data = JStr r →
  r ≠ "" →
  rooms st !! r = Some room →
  join_admits env room (password data) →
  on_message env (Some data) st
  = (Normal tt, st,
     [WsSend (JoinSuccess (JStr r)
                (get_docs_ordered "timestamp" (messages_collection st r)).*2)]).
Proof.
  intros Ha Hr Hne Hroom Hadm. run_task. rewrite Ha, Hr. simpl.
  rewrite (eqb_nonempty r Hne). simpl. rewrite Hroom.
  destruct Hadm as [-> | (p & h & -> & Hh & Hcmp)]; simpl; [done|].
  rewrite Hh. simpl. destruct (negb (h =? "")%string); simpl; by rewrite ?Hcmp.
Qed.

(** ** An invariant of the handler: messages are stamped *)

Section Preserves.
Context (P : Store → Prop).

Lemma preserves_ret {A} (a : A) : preserves P (mret a).
Proof. by intros st. Qed.

Lemma preserves_throw {A} (e : Exn) : preserves P (throw (A := A) e).
Proof. by intros st. Qed.

Lemma preserves_emit (e : Event) : preserves P (emit e).
Proof. by intros st. Qed.

Lemma preserves_read {A} (f : Store → A) : preserves P (read f).
Proof. by intros st. Qed.

Lemma preserves_write (f : Store → Store) :
  (∀ st, P st → P (f st)) → preserves P (write f).
Proof. intros Hf st. apply Hf. Qed.

Lemma preserves_bind {A B} (m : Task A) (k : A → Task B) :
  preserves P m → (∀ a, preserves P (k a)) → preserves P (m ≫= k).
Proof.
  intros Hm Hk st Hst. unfold mbind, Task_bind, bind.
  specialize (Hm st Hst). destruct (m st) as [[[a|e] st1] t1]; simpl in *; [|done].
  specialize (Hk a st1 Hm). by destruct (k a st1) as [[c st2] t2].
Qed.

Lemma preserves_try_catch {A} (m : Task A) (h : Exn → Task A) :
  preserves P m → (∀ e, preserves P (h e)) → preserves P (try_catch m h).
Proof.
  intros Hm Hh st Hst. unfold try_catch.
  specialize (Hm st Hst). destruct (m st) as [[[a|e] st1] t1]; simpl in *; [done|].
  specialize (Hh e st1 Hm). by destruct (h e st1) as [[c st2] t2].
Qed.

Lemma preserves_unawaited {A} (m : Task unit) (rest : Task A) :
  preserves P m → preserves P rest → preserves P (unawaited m rest).
Proof.
  intros Hm Hrest st Hst. unfold unawaited.
  specialize (Hm st Hst). destruct (m st) as [[c st1] t1]; simpl in *.
  specialize (Hrest st1 Hm). by destruct (rest st1) as [[c' st2] t2].
Qed.

Lemma preserves_doc (path : JsVal) : preserves P (doc path).
Proof.
  intros st Hst. destruct path as [| |b|n|s|t]; simpl; try done.
  by destruct (s =? "")%string.
Qed.

Lemma preserves_data_field (snapshot : option Doc) (k : string) :
  preserves P (data_field snapshot k).
Proof. intros st Hst. by destruct snapshot. Qed.

Lemma preserves_destroy (env : Env) (p : JsVal) (r : string) :
  preserves P (destroy env p r).
Proof.
  apply preserves_bind; [apply preserves_emit|]. intros _.
  destruct (destroy_resolves env p r); [apply preserves_ret | apply preserves_throw].
Qed.

Lemma preserves_deleteMediaByMessages (env : Env) (l : Snapshot) :
  preserves P (deleteMediaByMessages env l).
Proof. intros st Hst. by rewrite deleteMediaByMessages_run. Qed.

Lemma preserves_sendRoomList : preserves P sendRoomList.
Proof. by intros st. Qed.

End Preserves.

(** One step of a proof that a flow keeps an invariant. *)
Ltac preserve_step :=
  lazymatch goal with
  | |- preserves _ (mbind _ _) => apply preserves_bind; [|intros ?]
  | |- preserves _ (try_catch _ _) => apply preserves_try_catch; [|intros ?]
  | |- preserves _ (unawaited _ _) => apply preserves_unawaited
  | |- preserves _ (mret _) => apply preserves_ret
  | |- preserves _ (ret _) => apply preserves_ret
  | |- preserves _ (throw _) => apply preserves_throw
  | |- preserves _ (read _) => apply preserves_read
  | |- preserves _ (doc _) => apply preserves_doc
  | |- preserves _ (data_field _ _) => apply preserves_data_field
  | |- preserves _ (destroy _ _ _) => apply preserves_destroy
  | |- preserves _ (deleteMediaByMessages _ _) => apply preserves_deleteMediaByMessages
  | |- preserves _ sendRoomList => apply preserves_sendRoomList
  | |- preserves _ (ws_send _) => apply preserves_emit
  | |- preserves _ (clients_send _) => apply preserves_emit
  | |- preserves _ (console_error _) => apply preserves_emit
  | |- preserves _ (write _) => apply preserves_write
  | |- preserves _ (if ?b then _ else _) => destruct b
  | |- preserves _ (match ?x with _ => _ end) => destruct x
  end.

Lemma field_set_field_ne (k k' : string) (v : JsVal) (d : Doc) :
  k ≠ k' → field (set_field k v d) k' = field d k'.
Proof.
  intros Hne. unfold field, set_field.
  destruct v; try done; by rewrite lookup_insert_ne.
Qed.

Lemma newMsg_timestamp (env : Env) (data : Inbound) :
  field (newMsg env data) "timestamp" = JTime (server_timestamp env).
Proof.
  unfold newMsg. rewrite !field_set_field_ne by done.
  unfold field, set_field. by rewrite lookup_insert_eq.
Qed.

Lemma field_set_field_str (k s : string) (d : Doc) :
  field (set_field k (JStr s) d) k = JStr s.
Proof. unfold field. simpl. by rewrite lookup_insert_eq. Qed.

Lemma newMsg_id (env : Env) (data : Inbound) :
  field (newMsg env data) "id" = JStr (pretty (date_now env)).
Proof. unfold newMsg. apply field_set_field_str. Qed.

Lemma stamped_with_rooms (f : gmap string Doc → gmap string Doc) (st : Store) :
  stamped st → stamped (with_rooms f st).
Proof. done. Qed.

Lemma stamped_with_users (f : gmap string Doc → gmap string Doc) (st : Store) :
  stamped st → stamped (with_users f st).
Proof. done. Qed.

Lemma stamped_in_messages (room : string) (f : gmap string Doc → gmap string Doc)
    (st : Store) :
  (∀ c m d, f c !! m = Some d →
            c !! m = Some d ∨ ∃ t, field d "timestamp" = JTime t) →
  stamped st → stamped (in_messages room f st).
Proof.
  intros Hf Hst r m d. unfold message_doc, messages_of, in_messages. simpl.
  destruct (decide (room = r)) as [->|Hne].
  - rewrite lookup_insert_eq. simpl. intros [Hold|Hnew]%Hf; [|done].
    by apply (Hst r m).
  - rewrite lookup_insert_ne by done. apply (Hst r m).
Qed.

Lemma stamped_recursiveDelete (room : string) (st : Store) :
  stamped st → stamped (recursiveDelete room st).
Proof.
  intros Hst r m d. unfold message_doc, messages_of, recursiveDelete. simpl.
  destruct (decide (room = r)) as [->|Hne].
  - by rewrite lookup_delete_eq.
  - rewrite lookup_delete_ne by done. apply (Hst r m).
Qed.

Lemma lookup_foldr_delete (snap : Snapshot) (c : gmap string Doc) (m : string) (d : Doc) :
  foldr (λ x : string * Doc, delete x.1) c snap !! m = Some d → c !! m = Some d.
Proof.
  induction snap as [|x snap IH]; [done|]. simpl.
  destruct (decide (x.1 = m)) as [->|Hne].
  - by rewrite lookup_delete_eq.
  - rewrite lookup_delete_ne by done. apply IH.
Qed.

Lemma stamped_no_store : stamped no_store.
Proof. intros r m d. unfold message_doc, messages_of. simpl. by rewrite !lookup_empty. Qed.

Lemma preserves_delete_rooms (env : Env) (roomSnap : Snapshot) :
  preserves stamped (delete_rooms env roomSnap).
Proof.
  induction roomSnap as [|room rest IH]; simpl; [apply preserves_ret|].
  repeat preserve_step; [apply stamped_recursiveDelete | apply IH].
Qed.

(** Every run of the handler keeps the invariant. *)
Lemma on_message_stamped (env : Env) (msg : option Inbound) :
  preserves stamped (on_message env msg).
Proof.
  unfold on_message, create, join, message, delete_message, delete_room, delete_account,
    hash, compare, deleteUser.
  repeat preserve_step;
    try apply preserves_delete_rooms;
    try (by apply stamped_with_rooms);
    try (by apply stamped_with_users);
    intros st; apply stamped_in_messages; intros c m d.
  - rewrite lookup_insert. case_decide; [|by left].
    intros [= <-]. right. eexists. apply newMsg_timestamp.
  - rewrite lookup_delete. case_decide; [done|by left].
  - intros H. left. by apply lookup_foldr_delete in H.
Qed.

Lemma stamped_after (env : Env) (data : Inbound) (st : Store) :
  stamped st → stamped (after env data st).
Proof. apply on_message_stamped. Qed.

Lemma stamped_chat_store : stamped chat_store.
Proof. do 2 apply stamped_after. apply stamped_after, stamped_no_store. Qed.

(** ** Send order *)

Lemma value_compare_eq (a b : JsVal) : value_compare a b = Eq → a = b.
Proof.
  destruct a, b; simpl; try discriminate; try reflexivity.
  - by destruct b, b0.
  - by intros ->%Z.compare_eq.
  - by intros ->%String.compare_eq_iff.
  - by intros ->%Z.compare_eq.
Qed.

Lemma string_compare_lt_trans (s1 s2 s3 : string) :
  String.compare s1 s2 = Lt → String.compare s2 s3 = Lt → String.compare s1 s3 = Lt.
Proof.
  intros H1 H2.
  apply OrderedTypeEx.String_as_OT.cmp_lt.
  apply (OrderedTypeEx.String_as_OT.lt_trans s1 s2 s3);
    by apply OrderedTypeEx.String_as_OT.cmp_lt.
Qed.

Lemma string_leb_trans (s1 s2 s3 : string) :
  String.leb s1 s2 = true → String.leb s2 s3 = true → String.leb s1 s3 = true.
Proof.
  unfold String.leb.
  destruct (String.compare s1 s2) eqn:E1; [| |discriminate];
    destruct (String.compare s2 s3) eqn:E2; try discriminate; intros _ _.
  - apply String.compare_eq_iff in E1 as ->. by rewrite E2.
  - apply String.compare_eq_iff in E1 as ->. by rewrite E2.
  - apply String.compare_eq_iff in E2 as <-. by rewrite E1.
  - by rewrite (string_compare_lt_trans s1 s2 s3).
Qed.

Lemma value_compare_lt_trans (a b c : JsVal) :
  value_compare a b = Lt → value_compare b c = Lt → value_compare a c = Lt.
Proof.
  destruct a, b, c; simpl; try discriminate; try reflexivity.
  - by destruct b, b0, b1.
  - rewrite !Z.compare_lt_iff. lia.
  - apply string_compare_lt_trans.
  - rewrite !Z.compare_lt_iff. lia.
Qed.

#[global] Instance by_field_trans (k : string) : Transitive (by_field k).
Proof.
  intros x y z. unfold by_field.
  destruct (value_compare (field x.2 k) (field y.2 k)) eqn:Exy; [| |done];
    destruct (value_compare (field y.2 k) (field z.2 k)) eqn:Eyz; try done.
  - apply value_compare_eq in Exy. rewrite Exy, Eyz. apply string_leb_trans.
  - apply value_compare_eq in Exy. by rewrite Exy, Eyz.
  - apply value_compare_eq in Eyz. by rewrite <-Eyz, Exy.
  - by rewrite (value_compare_lt_trans _ _ _ Exy Eyz).
Qed.

Lemma by_field_antisym_id (k : string) (x y : string * Doc) :
  by_field k x y → by_field k y x → x.1 = y.1.
Proof.
  unfold by_field. rewrite (value_compare_antisym (field x.2 k) (field y.2 k)).
  destruct (value_compare (field x.2 k) (field y.2 k)); simpl; try done.
  intros H1 H2. apply String.leb_antisym; done.
Qed.

Lemma get_docs_ordered_StronglySorted (k : string) (c : Snapshot) :
  StronglySorted (by_field k) (get_docs_ordered k c).
Proof. apply (StronglySorted_merge_sort _). Qed.

(** A document with a new id and a timestamp after all the others comes
    last in the ordered query, and the others keep their places. *)
Lemma get_docs_ordered_insert_last (c : gmap string Doc) (id : string) (new : Doc) (ts : Z) :
  c !! id = None →
  field new "timestamp" = JTime ts →
  (∀ m d, c !! m = Some d → ∃ t, field d "timestamp" = JTime t ∧ (t < ts)%Z) →
  get_docs_ordered "timestamp" (map_to_list (<[id := new]> c))
  = get_docs_ordered "timestamp" (map_to_list c) ++ [(id, new)].
Proof.
  intros Hfresh Hnew Hold.
  assert (Hperm : get_docs_ordered "timestamp" (map_to_list (<[id := new]> c))
                  ≡ₚ get_docs_ordered "timestamp" (map_to_list c) ++ [(id, new)]).
  { rewrite !get_docs_ordered_Permutation, map_to_list_insert by done.
    rewrite filter_cons_True by (simpl; by rewrite Hnew).
    by rewrite Permutation_cons_append. }
  apply (StronglySorted_unique_strong (by_field "timestamp"));
    [|apply get_docs_ordered_StronglySorted| |done].
  - intros x1 x2 Hx1 Hx2 H12 H21.
    pose proof (by_field_antisym_id _ _ _ H12 H21) as Hid.
    rewrite <-Hperm in Hx2.
    rewrite get_docs_ordered_Permutation in Hx1, Hx2.
    apply list_elem_of_filter in Hx1 as [_ Hx1], Hx2 as [_ Hx2].
    destruct x1 as [m1 d1], x2 as [m2 d2]. simpl in Hid. subst m2.
    apply elem_of_map_to_list in Hx1, Hx2. congruence.
  - apply StronglySorted_app_2;
      [|apply get_docs_ordered_StronglySorted|repeat constructor].
    intros [m d] x2 Hin ->%list_elem_of_singleton.
    rewrite get_docs_ordered_Permutation in Hin.
    apply list_elem_of_filter in Hin as [_ Hin].
    apply elem_of_map_to_list, Hold in Hin as (t & Ht & Hlt).
    unfold by_field. simpl. rewrite Ht, Hnew. simpl.
    by rewrite (proj2 (Z.compare_lt_iff t ts) Hlt).
Qed.

Lemma pretty_N_go_nonempty (x : N) (s : string) :
  s ≠ "" → pretty_N_go x s ≠ "".
Proof.
  revert s. induction (N.lt_wf_0 x) as [x _ IH]; intros s Hs.
  assert (x = 0 ∨ 0 < x)%N as [->|Hpos] by lia.
  - by rewrite pretty_N_go_0.
  - rewrite pretty_N_go_step by done. apply IH; [|done].
    apply N.div_lt; lia.
Qed.

(** [n.toString()] is never the empty string. *)
Lemma pretty_N_nonempty (x : N) : pretty x ≠ "".
Proof.
  unfold pretty, pretty_N. case_decide; [done|].
  rewrite pretty_N_go_step by lia. by apply pretty_N_go_nonempty.
Qed.

Lemma message_run (env : Env) (st : Store) (data : Inbound) (r : string) (room : Doc) :
  action data = JStr "message" →
  roomName data = JStr r →
  r ≠ "" →
  rooms st !! r = Some room →
  on_message env (Some data) st
  = (Normal tt,
     in_messages r <[pretty (date_now env) := newMsg env data]> st,
     [ClientsSend (Message (newMsg env data))]).
Proof.
  intros Ha Hr Hne Hroom. run_task. rewrite Ha, Hr. simpl.
  rewrite (eqb_nonempty r Hne). simpl. rewrite Hroom, newMsg_id. simpl.
  rewrite (eqb_nonempty _ (pretty_N_nonempty (date_now env))). simpl.
  unfold message_doc, messages_of, in_messages. simpl.
  rewrite lookup_insert_eq. simpl. by rewrite lookup_insert_eq.
Qed.

Lemma messages_collection_in_messages (st : Store) (r : string)
    (f : gmap string Doc → gmap string Doc) :
  messages_collection (in_messages r f st) r = map_to_list (f (messages_of st r)).
Proof.
  unfold messages_collection, messages_of, in_messages. simpl.
  by rewrite lookup_insert_eq.
Qed.

(** A message sent with a new id, at a server time after those of the
    messages of the room, is the last of the list a later join returns; the
    list before it is the one a join returned before the send. *)
Lemma join_after_message (env' : Env) (st : Store) (data' : Inbound) (r : string) :
  action data' = JStr "message" →
  roomName data' = JStr r →
  r ≠ "" →
  is_Some (rooms st !! r) →
  message_doc st r (pretty (date_now env')) = None →
  (∀ m d, message_doc st r m = Some d →
          ∃ t, field d "timestamp" = JTime t ∧ (t < server_timestamp env')%Z) →
  rooms (after env' data' st) = rooms st
  ∧ (get_docs_ordered "timestamp" (messages_collection (after env' data' st) r)).*2
    = (get_docs_ordered "timestamp" (messages_collection st r)).*2 ++ [newMsg env' data'].
Proof.
  intros Ha Hr Hne [room Hroom] Hfresh Hclock. unfold after.
  rewrite (message_run env' st data' r room Ha Hr Hne Hroom). simpl.
  split; [done|].
  rewrite messages_collection_in_messages.
  rewrite (get_docs_ordered_insert_last _ _ _ (server_timestamp env'));
    [by rewrite fmap_app | done | apply newMsg_timestamp | done].
Qed.

(** C6.  A join frame that the room lets in changes nothing in the store
    and produces one event: a [join-success] frame to the sender with the
    room name and a list of messages.  Along the list the timestamps never
    decrease, and the list holds each stored message of the room that has a
    timestamp once.  In a store where every message carries a server
    timestamp (as every message the handler writes does), that is every
    message of the room, and the times are sorted.  The order is the send
    order: after a message is sent to the room with a new id and a server
    time after those already stored, the same join returns the same list
    with the new message at its end. *)
Theorem join_success_ordered_messages
    (env : Env) (st : Store) (data : Inbound) (r : string) (room : Doc) :
  action data = JStr "join" →
  roomName data = JStr r →
  r ≠ "" →
  rooms st !! r = Some room →
  join_admits env room (password data) →
  ∃ msgs : list Doc,
    on_message env (Some data) st
    = (Normal tt, st, [WsSend (JoinSuccess (JStr r) msgs)])
    ∧ Sorted timestamp_le msgs
    ∧ msgs ≡ₚ (filter (λ kv : string * Doc, field kv.2 "timestamp" ≠ JUndefined)
                       (map_to_list (messages_of st r))).*2
    ∧ (stamped st →
       msgs ≡ₚ (map_to_list (messages_of st r)).*2
       ∧ ∃ times, (λ d, field d "timestamp") <$> msgs = JTime <$> times
                  ∧ StronglySorted Z.le times)
    ∧ (∀ env' data',
         action data' = JStr "message" →
         roomName data' = JStr r →
         message_doc st r (pretty (date_now env')) = None →
         (∀ m d, message_doc st r m = Some d →
                 ∃ t, field d "timestamp" = JTime t ∧ (t < server_timestamp env')%Z) →
         on_message env (Some data) (after env' data' st)
         = (Normal tt, after env' data' st,
            [WsSend (JoinSuccess (JStr r) (msgs ++ [newMsg env' data']))])).
Proof.
  intros Ha Hr Hne Hroom Hadm.
  exists (get_docs_ordered "timestamp" (messages_collection st r)).*2.
  split; [by apply (join_run env st data r room)|].
  split; [apply get_docs_ordered_Sorted|].
  split; [by rewrite get_docs_ordered_Permutation|].
  split.
  - intros Hst.
    assert (Hperm : (get_docs_ordered "timestamp" (messages_collection st r)).*2
                    ≡ₚ (map_to_list (messages_of st r)).*2).
    { by rewrite get_docs_ordered_Permutation, stamped_filter. }
    split; [done|].
    apply Sorted_timestamps; [|apply get_docs_ordered_Sorted].
    rewrite Hperm. apply Forall_forall. intros d Hin.
    apply list_elem_of_fmap in Hin as ([m d'] & -> & Hin).
    apply elem_of_map_to_list in Hin. by apply (Hst r m).
  - intros env' data' Ha' Hr' Hfresh Hclock.
    destruct (join_after_message env' st data' r Ha' Hr' Hne) as [Hrooms <-];
      [by eexists | done | done |].
    apply (join_run env _ data r room); try done. by rewrite Hrooms.
Qed.

Lemma join_success_ordered_messages_witness :
  ∃ msgs : list Doc,
    on_message env_up
      (Some (frame (JStr "join") (JStr "lobby") JUndefined JUndefined JUndefined))
      chat_store
    = (Normal tt, chat_store, [WsSend (JoinSuccess (JStr "lobby") msgs)])
    ∧ Sorted timestamp_le msgs
    ∧ length msgs = 2.
Proof.
  destruct (join_success_ordered_messages env_up chat_store
              (frame (JStr "join") (JStr "lobby") JUndefined JUndefined JUndefined)
              "lobby" (default ∅ (rooms chat_store !! "lobby")))
    as (msgs & Hrun & Hsorted & Hperm & _);
    [reflexivity | reflexivity | discriminate | vm_compute; reflexivity
    | left; vm_compute; reflexivity |].
  exists msgs. split; [exact Hrun|]. split; [exact Hsorted|].
  rewrite Hperm. vm_compute. reflexivity.
Defined.

(** * The rest of the handler *)

(** ** The handler as a state machine *)

Lemma foldr_delete_lookup (snap : Snapshot) (c : gmap string Doc) (m : string) :
  foldr (λ x : string * Doc, delete x.1) c snap !! m
  = if decide (m ∈ snap.*1) then None else c !! m.
Proof.
  induction snap as [|x snap IH]; [done|]. simpl.
  rewrite lookup_delete, IH.
  destruct (decide (x.1 = m)) as [<-|Hne].
  - rewrite decide_True; [done|]. by left.
  - destruct (decide (m ∈ snap.*1)) as [Hin|Hnin].
    + rewrite decide_True; [done|]. by right.
    + rewrite decide_False; [done|]. by intros [->|?]%elem_of_cons.
Qed.

(** The batch of the delete-room flow empties the sub-collection. *)
Lemma foldr_delete_all (c : gmap string Doc) :
  foldr (λ x : string * Doc, delete x.1) c (get_docs (map_to_list c)) = ∅.
Proof.
  apply map_eq. intros m. rewrite foldr_delete_lookup, lookup_empty.
  case_decide as Hin; [done|].
  destruct (c !! m) as [d|] eqn:Hm; [|done].
  exfalso. apply Hin. rewrite get_docs_Permutation.
  apply (list_elem_of_fmap_2 fst _ (m, d)). by apply elem_of_map_to_list.
Qed.

Lemma create_transition (env : Env) (data : Inbound) (st : Store) :
  transition st (create env data st).1.2.
Proof.
  run_task.
  destruct (negb (truthy (roomName data)) && negb (truthy (uid data))); [apply t_nothing|].
  destruct (roomName data) as [| |b|n|r|t]; simpl; try apply t_nothing.
  destruct (r =? "")%string eqn:Hr; simpl; [apply t_nothing|].
  apply String.eqb_neq in Hr.
  destruct (rooms st !! r) eqn:Hroom; simpl; [apply t_nothing|].
  destruct (truthy (password data)) eqn:Hp; simpl.
  - destruct (password data) as [| |b|n|p|t]; simpl; try apply t_nothing.
    apply (t_room_created st r _ (uid data) (server_timestamp env)); [done..|].
    unfold js_or. destruct (truthy (JStr (bcrypt_hash env p))) eqn:Hh; [|by left].
    right. eexists. split; [done|]. simpl in Hh.
    apply negb_true_iff in Hh. by apply String.eqb_neq.
  - apply (t_room_created st r _ (uid data) (server_timestamp env)); [done..|].
    left. unfold js_or. by rewrite Hp.
Qed.

Lemma join_store (env : Env) (data : Inbound) (st : Store) :
  (join env data st).1.2 = st.
Proof.
  run_task.
  destruct (roomName data) as [| |b|n|r|t]; simpl; try done.
  destruct (r =? "")%string; simpl; [done|].
  destruct (rooms st !! r) as [room|]; simpl; [|done].
  destruct (truthy (field room "password")); simpl; [|done].
  destruct (password data) as [| |b|n|p|t]; simpl; try done.
  destruct (field room "password") as [| |b|n|h|t]; simpl; try done.
  by destruct (bcrypt_compare env p h).
Qed.

Lemma newMsg_roomName (env : Env) (data : Inbound) (r : string) :
  roomName data = JStr r → field (newMsg env data) "roomName" = JStr r.
Proof.
  intros Hr. unfold newMsg. rewrite !field_set_field_ne by done.
  rewrite Hr. unfold field, set_field. by rewrite lookup_insert_eq.
Qed.

Lemma message_transition (env : Env) (data : Inbound) (st : Store) :
  transition st (message env data st).1.2.
Proof.
  run_task.
  destruct (roomName data) as [| |b|n|r|t] eqn:Hname; simpl; try apply t_nothing.
  destruct (r =? "")%string eqn:Hr; simpl; [apply t_nothing|].
  apply String.eqb_neq in Hr.
  destruct (rooms st !! r) as [room|] eqn:Hroom; simpl; [|apply t_nothing].
  rewrite newMsg_id. simpl.
  rewrite (eqb_nonempty _ (pretty_N_nonempty (date_now env))). simpl.
  apply t_message_stored;
    [done | apply pretty_N_nonempty | by eexists | apply newMsg_id
    | by apply newMsg_roomName | eexists; apply newMsg_timestamp].
Qed.

Lemma delete_message_transition (env : Env) (data : Inbound) (st : Store) :
  transition st (delete_message env data st).1.2.
Proof.
  run_task.
  destruct (roomName data) as [| |b|n|r|t]; simpl; try apply t_nothing.
  destruct (r =? "")%string; simpl; [apply t_nothing|].
  destruct (msgId data) as [| |b|n|m|t]; simpl; try apply t_nothing.
  destruct (m =? "")%string; simpl; [apply t_nothing|].
  destruct (message_doc st r m) as [d|] eqn:Hd; simpl; [|apply t_nothing].
  destruct (strict_eq (field d "userId") (uid data)); simpl; [|apply t_nothing].
  destruct (truthy (field d "public_id")); simpl;
    [destruct (destroy_resolves env _ _); simpl|];
    by apply (t_message_deleted st r m d).
Qed.

Lemma delete_room_transition (env : Env) (data : Inbound) (st : Store) :
  transition st (delete_room env data st).1.2.
Proof.
  run_task.
  destruct (roomName data) as [| |b|n|r|t]; simpl; try apply t_nothing.
  destruct (r =? "")%string; simpl; [apply t_nothing|].
  destruct (rooms st !! r) as [room|] eqn:Hroom; simpl; [|apply t_nothing].
  destruct (strict_eq (field room "owner") (uid data)); simpl; [|apply t_nothing].
  rewrite deleteMediaByMessages_run. simpl.
  unfold in_messages, messages_collection. rewrite foldr_delete_all.
  by apply (t_room_deleted st r room).
Qed.

Lemma delete_account_transition (env : Env) (data : Inbound) (st : Store) :
  transition st (delete_account env data st).1.2.
Proof.
  unfold delete_account.
  destruct (negb (truthy (uid data))); [apply t_nothing|].
  run_task.
  destruct (auth_delete_user env (uid data)); simpl; try apply t_nothing;
    (destruct (uid data) as [| |b|n|u|t]; simpl; try apply t_nothing;
     destruct (u =? "")%string; simpl; [apply t_nothing|];
     destruct (users st !! u) as [profile|]; simpl; [|apply t_nothing];
     destruct (truthy (field profile "public_id")); simpl;
     [destruct (destroy_resolves env _ _); simpl; [|apply t_nothing]|];
     rewrite delete_rooms_run by apply NoDup_get_docs_where;
     simpl; apply t_account_deleted).
Qed.

Lemma on_message_step (env : Env) (msg : option Inbound) (st : Store) :
  transition st (on_message env msg st).1.2.
Proof.
  unfold on_message.
  destruct msg as [data|]; [|apply t_nothing].
  unfold try_catch, mbind at 1, Task_bind, bind at 1. simpl.
  assert (Hcatch : ∀ m : Task unit,
    transition st (m st).1.2 →
    transition st
      (let '(c, st1, t1) := m st in
       match c with
       | Normal a => (Normal a, st1, t1)
       | Thrown e =>
           let '(r, st2, t2) := console_error (ErrorHandlingMessage e) st1 in
           (r, st2, t1 ++ t2)
       end).1.2).
  { intros m Hm. by destruct (m st) as [[[a|e] st1] t1]. }
  assert (Hwrap : ∀ m : Task unit,
    (let '(r, st2, t2) := m st in (r, st2, [] ++ t2)) = m st).
  { intros m. by destruct (m st) as [[c st2] t2]. }
  rewrite Hwrap.
  repeat (match goal with
          | |- context [if ?b then _ else _] => destruct b
          end);
    apply Hcatch;
    [apply create_transition | rewrite join_store; apply t_nothing
    | apply message_transition | apply delete_message_transition
    | apply delete_room_transition | apply delete_account_transition
    | apply t_nothing].
Qed.

Lemma message_doc_in_messages (r r' m : string)
    (f : gmap string Doc → gmap string Doc) (st : Store) :
  message_doc (in_messages r f st) r' m
  = if decide (r = r') then f (messages_of st r) !! m else message_doc st r' m.
Proof.
  unfold message_doc, messages_of, in_messages. simpl.
  rewrite lookup_insert. by case_decide.
Qed.

Lemma messages_of_in_messages (r : string)
    (f : gmap string Doc → gmap string Doc) (st : Store) :
  messages_of (in_messages r f st) r = f (messages_of st r).
Proof. unfold messages_of at 1, in_messages. simpl. by rewrite lookup_insert_eq. Qed.

Lemma message_doc_recursiveDelete (r r' m : string) (st : Store) :
  message_doc (recursiveDelete r st) r' m
  = if decide (r = r') then None else message_doc st r' m.
Proof.
  unfold message_doc, messages_of, recursiveDelete. simpl.
  rewrite lookup_delete. by case_decide.
Qed.

Lemma field_new_room_owner (password creator : JsVal) (t : Z) :
  field (new_room password creator t) "owner" = JUndefined.
Proof. unfold new_room. by rewrite !field_set_field_ne. Qed.

Lemma field_new_room_password (password creator : JsVal) (t : Z) :
  field (new_room password creator t) "password" = password.
Proof.
  unfold new_room, set_field at 1.
  destruct password; try (unfold field; by rewrite lookup_insert_eq).
  by rewrite !field_set_field_ne.
Qed.

Lemma field_new_room_createdBy (password creator : JsVal) (t : Z) :
  field (new_room password creator t) "createdBy" = creator.
Proof.
  unfold new_room. rewrite field_set_field_ne by done. unfold set_field at 1.
  destruct creator; try (unfold field; by rewrite lookup_insert_eq).
  by rewrite !field_set_field_ne.
Qed.

Lemma store_wf_recursiveDelete (r : string) (st : Store) :
  store_wf st → store_wf (recursiveDelete r st).
Proof.
  intros [Hname Hown Hpw Hroom Hkey]. split; simpl.
  - intros r' room [_ H]%lookup_delete_Some. by apply (Hname r' room).
  - intros r' room [_ H]%lookup_delete_Some. by apply (Hown r' room).
  - intros r' room [_ H]%lookup_delete_Some. by apply (Hpw r' room).
  - intros r' m d. rewrite message_doc_recursiveDelete.
    case_decide as Hr; [done|]. intros Hd.
    rewrite lookup_delete_ne by done. by apply (Hroom r' m d).
  - intros r' m d. rewrite message_doc_recursiveDelete.
    case_decide as Hr; [done|]. apply Hkey.
Qed.

Lemma transition_store_wf (st st' : Store) :
  store_wf st → transition st st' → store_wf st'.
Proof.
  intros Hwf Hstep. pose proof Hwf as [Hname Hown Hpw Hroom Hkey].
  destruct Hstep as [|r pw creator t Hr Hfresh Hpwd
                     |r m d Hr Hm Hex Hid Hrn Hts
                     |r m d Hd
                     |r room Hex
                     |u roomSnap].
  - done.
  - split; simpl.
    + intros r' room. rewrite lookup_insert. case_decide; [by subst|apply Hname].
    + intros r' room. rewrite lookup_insert. case_decide; [|apply Hown].
      intros [= <-]. apply field_new_room_owner.
    + intros r' room. rewrite lookup_insert. case_decide; [|apply Hpw].
      intros [= <-]. by rewrite field_new_room_password.
    + intros r' m d Hd. rewrite lookup_insert. case_decide; [by eexists|].
      by apply (Hroom r' m d).
    + apply Hkey.
  - split; try done.
    + intros r' m' d'. rewrite message_doc_in_messages.
      case_decide as Hrr; [subst r'; by intros _|apply Hroom].
    + intros r' m' d'. rewrite message_doc_in_messages.
      case_decide as Hrr; [subst r'|apply Hkey].
      rewrite lookup_insert. case_decide as Hmm; [|apply Hkey].
      subst m'. by intros [= <-].
  - split; try done.
    + intros r' m' d'. rewrite message_doc_in_messages.
      case_decide as Hrr; [subst r'|apply Hroom].
      intros [_ H]%lookup_delete_Some. by apply (Hroom r m' d').
    + intros r' m' d'. rewrite message_doc_in_messages.
      case_decide as Hrr; [subst r'|apply Hkey].
      intros [_ H]%lookup_delete_Some. by apply (Hkey r m' d').
  - split; simpl.
    + intros r' room' [_ H]%lookup_delete_Some. by apply (Hname r' room').
    + intros r' room' [_ H]%lookup_delete_Some. by apply (Hown r' room').
    + intros r' room' [_ H]%lookup_delete_Some. by apply (Hpw r' room').
    + intros r' m d Hd.
      assert (Hd' : message_doc (in_messages r (λ _, ∅) st) r' m = Some d) by exact Hd.
      rewrite message_doc_in_messages in Hd'. case_decide as Hrr; [done|].
      rewrite lookup_delete_ne by done. by apply (Hroom r' m d).
    + intros r' m d Hd.
      assert (Hd' : message_doc (in_messages r (λ _, ∅) st) r' m = Some d) by exact Hd.
      rewrite message_doc_in_messages in Hd'. case_decide as Hrr; [done|].
      by apply Hkey.
  - assert (Hstart : store_wf (with_users (delete u) st)) by (by split).
    revert Hstart. generalize (with_users (delete u) st).
    induction roomSnap as [|room rest IH]; intros s Hs; [done|].
    simpl. by apply IH, store_wf_recursiveDelete.
Qed.




Lemma store_wf_no_store : store_wf no_store.
Proof.
  split; unfold message_doc, messages_of; simpl; intros *;
    rewrite ?lookup_empty; simpl; rewrite ?lookup_empty; done.
Qed.

Lemma store_wf_run (fs : list (Env * option Inbound)) (st : Store) :
  store_wf st → store_wf (run fs st).
Proof.
  unfold run. revert st.
  induction fs as [|f fs IH]; intros st Hst; [done|].
  simpl. apply IH. eapply transition_store_wf; [done|].
  apply on_message_step.
Qed.

(** The empty database is well formed and every frame whose [roomName],
    [msgId] and [uid] are plain keeps it so: room names and message ids
    are non-empty, no room has an [owner] field, a stored password is [null]
    or a non-empty string, every message belongs to an existing room and
    carries its own id, the name of its room and a server timestamp. *)
Theorem run_store_wf (fs : list (Env * option Inbound)) :
  forallb plain_entry fs = true →
  store_wf (run fs no_store).
Proof. intros _. apply store_wf_run, store_wf_no_store. Qed.

Lemma run_store_wf_witness : store_wf (run chat_frames no_store).
Proof. apply (run_store_wf chat_frames). reflexivity. Defined.

(** ** Who can delete a room *)

(** In a database the handler has built, a delete-room frame that carries
    a [uid] deletes nothing, whoever sends it: the database is unchanged,
    and when the frame names an existing room the only event is the
    permission error to the sender. *)
Theorem delete_room_with_uid_never_deletes
    (fs : list (Env * option Inbound)) (env : Env) (data : Inbound) :
  action data = JStr "delete-room" →
  uid data ≠ JUndefined →
  ∃ tr,
    on_message env (Some data) (run fs no_store) = (Normal tt, run fs no_store, tr)
    ∧ frames tr ⊆ [WsSend (Error None "Only the creator can delete this room.")]
    ∧ (∀ r, roomName data = JStr r → is_Some (rooms (run fs no_store) !! r) →
         tr = [WsSend (Error None "Only the creator can delete this room.")]).
Proof.
  intros Ha Hu. pose proof (store_wf_run fs _ store_wf_no_store) as Hwf.
  destruct Hwf as [Hname Hown _ _ _]. generalize dependent (run fs no_store).
  intros st Hname Hown.
  destruct (roomName data) as [| |b|n|r|t] eqn:Hr;
    try (eexists; split; [run_task; rewrite Ha, Hr; reflexivity|];
         split; [set_solver|]; intros r; discriminate).
  destruct (rooms st !! r) as [room|] eqn:Hroom.
  - eexists. split.
    + apply (delete_room_without_owner env st data r room); try done.
      * by apply (Hname r room).
      * by apply (Hown r room).
    + split; [set_solver|]. done.
  - destruct (decide (r = "")) as [->|Hne].
    + eexists. split; [run_task; rewrite Ha, Hr; reflexivity|].
      split; [set_solver|]. intros r [= <-]. rewrite Hroom. by intros [? ?].
    + eexists. split.
      * run_task. rewrite Ha, Hr. simpl. rewrite (eqb_nonempty r Hne). simpl.
        rewrite Hroom. reflexivity.
      * split; [set_solver|]. intros r' [= <-]. rewrite Hroom. by intros [? ?].
Qed.

Lemma delete_room_with_uid_never_deletes_witness :
  ∃ tr,
    on_message env_up
      (Some (frame (JStr "delete-room") (JStr "lobby") (JStr "u1") JUndefined JUndefined))
      (run chat_frames no_store)
    = (Normal tt, run chat_frames no_store, tr)
    ∧ frames tr ⊆ [WsSend (Error None "Only the creator can delete this room.")]
    ∧ (∀ r, JStr "lobby" = JStr r → is_Some (rooms (run chat_frames no_store) !! r) →
         tr = [WsSend (Error None "Only the creator can delete this room.")]).
Proof.
  apply (delete_room_with_uid_never_deletes chat_frames env_up
           (frame (JStr "delete-room") (JStr "lobby") (JStr "u1") JUndefined JUndefined));
    [reflexivity | discriminate].
Defined.

Lemma frames_media_cleanup (env : Env) (l : Snapshot) :
  frames (flat_map (λ msg : string * Doc, media_cleanup env msg.2) l) = [].
Proof.
  induction l as [|msg l IH]; [done|]. simpl. unfold frames in *.
  rewrite filter_app, IH, app_nil_r. unfold media_cleanup.
  destruct (truthy _); [|done]. by destruct (destroy_resolves _ _ _).
Qed.

(** The database the delete-room flow leaves. *)
Lemma delete_room_store (st : Store) (r : string) :
  let st' :=
    with_rooms (delete r)
      (in_messages r
         (λ c, foldr (λ d : string * Doc, delete d.1) c
                     (get_docs (messages_collection st r))) st) in
  rooms st' = delete r (rooms st)
  ∧ messages_of st' r = ∅
  ∧ (∀ r', r' ≠ r → messages_of st' r' = messages_of st r')
  ∧ users st' = users st.
Proof.
  simpl. split; [done|]. split; [|split; [|done]].
  - unfold messages_of at 1. simpl. rewrite lookup_insert_eq. simpl.
    apply foldr_delete_all.
  - intros r' Hne. unfold messages_of at 1. simpl.
    by rewrite lookup_insert_ne.
Qed.

(** A delete-room frame whose [uid] is the [owner] field of the room
    removes the room document and every message of the room, leaves the
    other rooms, their messages and the profiles as they were, and sends
    one frame: the new room list, to every client. *)
Theorem delete_room_clears_room
    (env : Env) (st : Store) (data : Inbound) (r : string) (room : Doc) :
  action data = JStr "delete-room" →
  roomName data = JStr r →
  r ≠ "" →
  rooms st !! r = Some room →
  strict_eq (field room "owner") (uid data) = true →
  ∃ st' tr,
    on_message env (Some data) st = (Normal tt, st', tr)
    ∧ rooms st' = delete r (rooms st)
    ∧ messages_of st' r = ∅
    ∧ (∀ r', r' ≠ r → messages_of st' r' = messages_of st r')
    ∧ users st' = users st
    ∧ frames tr = [ClientsSend (RoomsUpdated (room_list st'))].
Proof.
  intros Ha Hr Hne Hroom Hown. eexists _, _.
  split; [by apply (delete_room_run env st data r room)|].
  destruct (delete_room_store st r) as (H1 & H2 & H3 & H4).
  split_and!; try done.
  unfold frames. rewrite filter_app. fold (frames (flat_map (λ msg : string * Doc, media_cleanup env msg.2) (get_docs (messages_collection st r)))).
  by rewrite frames_media_cleanup.
Qed.

Lemma delete_room_clears_room_witness :
  ∃ st' tr,
    on_message env_media_down
      (Some (frame (JStr "delete-room") (JStr "lobby") JUndefined JUndefined JUndefined))
      chat_store
    = (Normal tt, st', tr)
    ∧ rooms st' = delete "lobby" (rooms chat_store)
    ∧ messages_of st' "lobby" = ∅
    ∧ (∀ r', r' ≠ "lobby" → messages_of st' r' = messages_of chat_store r')
    ∧ users st' = users chat_store
    ∧ frames tr = [ClientsSend (RoomsUpdated (room_list st'))].
Proof.
  apply (delete_room_clears_room env_media_down chat_store _ "lobby"
           (default ∅ (rooms chat_store !! "lobby")));
    [reflexivity | reflexivity | discriminate | vm_compute; reflexivity
    | vm_compute; reflexivity].
Defined.

(** In a database the handler has built, a delete-room frame without
    [uid] deletes the room it names and the messages of that room, whoever
    created the room. *)
Theorem delete_room_without_uid_deletes
    (fs : list (Env * option Inbound)) (env : Env) (data : Inbound) (r : string) :
  action data = JStr "delete-room" →
  uid data = JUndefined →
  roomName data = JStr r →
  is_Some (rooms (run fs no_store) !! r) →
  ∃ st' tr,
    on_message env (Some data) (run fs no_store) = (Normal tt, st', tr)
    ∧ rooms st' !! r = None
    ∧ messages_of st' r = ∅.
Proof.
  intros Ha Hu Hr [room Hroom].
  pose proof (store_wf_run fs _ store_wf_no_store) as [Hname Hown _ _ _].
  eexists _, _. split.
  - apply (delete_room_run env _ data r room); try done.
    + by apply (Hname r room).
    + rewrite (Hown r room Hroom), Hu. done.
  - destruct (delete_room_store (run fs no_store) r) as (H1 & H2 & _).
    split; [|done]. rewrite H1. apply lookup_delete_eq.
Qed.

Lemma delete_room_without_uid_deletes_witness :
  ∃ st' tr,
    on_message env_up
      (Some (frame (JStr "delete-room") (JStr "lobby") JUndefined JUndefined JUndefined))
      (run chat_frames no_store)
    = (Normal tt, st', tr)
    ∧ rooms st' !! "lobby" = None
    ∧ messages_of st' "lobby" = ∅.
Proof.
  apply (delete_room_without_uid_deletes chat_frames env_up
           (frame (JStr "delete-room") (JStr "lobby") JUndefined JUndefined JUndefined)
           "lobby");
    [reflexivity | reflexivity | reflexivity | vm_compute; by eexists].
Defined.

(** ** Creating a room, then joining it *)

Lemma create_run (env : Env) (st : Store) (data : Inbound) (r : string) :
  action data = JStr "create" →
  roomName data = JStr r →
  r ≠ "" →
  rooms st !! r = None →
  (truthy (password data) = false ∨ ∃ p, password data = JStr p) →
  let st1 :=
    with_rooms
      <[r := new_room (stored_password env (password data)) (uid data)
                      (server_timestamp env)]> st in
  on_message env (Some data) st
  = (Normal tt, st1,
     [WsSend (CreateSuccess (JStr r)); ClientsSend (RoomsUpdated (room_list st1))]).
Proof.
  intros Ha Hr Hne Hroom Hpw. run_task. rewrite Ha, Hr. simpl.
  rewrite (eqb_nonempty r Hne). simpl. rewrite Hroom.
  destruct Hpw as [Hfalse | [p Hp]].
  - rewrite Hfalse. simpl. unfold js_or. rewrite Hfalse.
    assert (stored_password env (password data) = JNull) as ->; [|done].
    unfold stored_password. destruct (password data); try done. by rewrite Hfalse.
  - rewrite Hp. unfold stored_password.
    destruct (truthy (JStr p)) eqn:Ht; simpl; [done|].
    unfold js_or. by rewrite Ht.
Qed.

Lemma messages_of_absent_room (st : Store) (r : string) :
  store_wf st → rooms st !! r = None → messages_of st r = ∅.
Proof.
  intros Hwf Hroom. apply map_eq. intros m. rewrite lookup_empty.
  destruct (messages_of st r !! m) as [d|] eqn:Hd; [|done].
  destruct (wf_message_room st Hwf r m d Hd) as [room Hsome]. congruence.
Qed.

(** In a database the handler has built from frames whose [roomName],
    [msgId] and [uid] are plain, a create frame for a name no room has
    (the id of a document; with no password, or with a string the hash of
    which verifies) writes the room, sends [create-success] to
    the sender and then the new room list to every client; a join frame for
    that name with the same password is then answered with [join-success]
    and an empty list of messages. *)
Theorem create_then_join_empty
    (fs : list (Env * option Inbound)) (env env' : Env) (data j : Inbound) (r : string) :
  forallb plain_entry fs = true →
  action data = JStr "create" →
  roomName data = JStr r →
  document_id r = true →
  rooms (run fs no_store) !! r = None →
  (truthy (password data) = false
   ∨ ∃ p, password data = JStr p ∧ bcrypt_compare env' p (bcrypt_hash env p) = true) →
  action j = JStr "join" →
  roomName j = JStr r →
  password j = password data →
  ∃ st1,
    on_message env (Some data) (run fs no_store)
    = (Normal tt, st1,
       [WsSend (CreateSuccess (JStr r)); ClientsSend (RoomsUpdated (room_list st1))])
    ∧ (∃ room, rooms st1 !! r = Some room ∧ field room "createdBy" = uid data)
    ∧ on_message env' (Some j) st1
      = (Normal tt, st1, [WsSend (JoinSuccess (JStr r) [])]).
Proof.
  intros _ Ha Hr Hne%document_id_nonempty Hroom Hpw Hja Hjr Hjp.
  pose proof (store_wf_run fs _ store_wf_no_store) as Hwf.
  generalize dependent (run fs no_store). intros st Hroom Hwf.
  eexists. split.
  { apply (create_run env st data r); try done.
    destruct Hpw as [?|(p & ? & _)]; [by left|right; by eexists]. }
  split.
  { eexists. split; [apply lookup_insert_eq|apply field_new_room_createdBy]. }
  rewrite (join_run env' _ j r
             (new_room (stored_password env (password data)) (uid data)
                       (server_timestamp env)) Hja Hjr Hne).
  - unfold messages_collection.
    change (messages_of (with_rooms _ st) r) with (messages_of st r).
    rewrite (messages_of_absent_room st r Hwf Hroom). done.
  - apply lookup_insert_eq.
  - unfold join_admits. rewrite field_new_room_password, Hjp.
    destruct Hpw as [Hfalse | (p & Hp & Hcmp)].
    + left. unfold stored_password. destruct (password data); try done.
      by rewrite Hfalse.
    + rewrite Hp. unfold stored_password, js_or.
      destruct (truthy (JStr p)); [|by left].
      destruct (truthy (JStr (bcrypt_hash env p))); [|by left].
      right. by eexists _, _.
Qed.

Lemma create_then_join_empty_witness :
  ∃ st1,
    on_message env_up
      (Some (frame (JStr "create") (JStr "vault") (JStr "u2") (JStr "s3cret") JUndefined))
      (run chat_frames no_store)
    = (Normal tt, st1,
       [WsSend (CreateSuccess (JStr "vault")); ClientsSend (RoomsUpdated (room_list st1))])
    ∧ (∃ room, rooms st1 !! "vault" = Some room ∧ field room "createdBy" = JStr "u2")
    ∧ on_message env_media_down
        (Some (frame (JStr "join") (JStr "vault") JUndefined (JStr "s3cret") JUndefined))
        st1
      = (Normal tt, st1, [WsSend (JoinSuccess (JStr "vault") [])]).
Proof.
  apply (create_then_join_empty chat_frames env_up env_media_down
           (frame (JStr "create") (JStr "vault") (JStr "u2") (JStr "s3cret") JUndefined)
           (frame (JStr "join") (JStr "vault") JUndefined (JStr "s3cret") JUndefined)
           "vault");
    [reflexivity | reflexivity | reflexivity | reflexivity
    | vm_compute; reflexivity
    | right; exists "s3cret"; split; [reflexivity | vm_compute; reflexivity]
    | reflexivity | reflexivity | reflexivity].
Defined.

(** ** Frames the handler does not know *)

Lemma strict_eq_str_false (v : JsVal) (s : string) :
  v ≠ JStr s → strict_eq v (JStr s) = false.
Proof.
  intros Hne. destruct (strict_eq v (JStr s)) eqn:E; [|done].
  by apply strict_eq_str in E.
Qed.

(** A frame that is not JSON leaves one error line and nothing else, and
    so does the frame [null], which parses and cannot be destructured.  A
    frame that parses to any other value and whose [action] is none of the
    six the handler knows (or is not there) leaves no event at all.  None of
    them changes the database. *)
Theorem unknown_frame_dropped (env : Env) (st : Store) :
  on_frame env NotJson st
  = (Normal tt, st, [ConsoleError (ErrorHandlingMessage SyntaxError)])
  ∧ on_frame env JsonNull st
    = (Normal tt, st, [ConsoleError (ErrorHandlingMessage TypeError)])
  ∧ ∀ data,
      action data ∉ [JStr "create"; JStr "join"; JStr "message";
                      JStr "delete-message"; JStr "delete-room";
                      JStr "delete-account"] →
      on_frame env (JsonValue data) st = (Normal tt, st, []).
Proof.
  split; [done|]. split; [done|]. intros data Hnot. unfold on_frame. run_task.
  rewrite !strict_eq_str_false; [done|..]; intros Heq; apply Hnot; rewrite Heq;
    set_solver.
Qed.

Lemma unknown_frame_dropped_witness :
  on_frame env_up
    (JsonValue (frame (JStr "typing") (JStr "lobby") (JStr "u1") JUndefined JUndefined))
    chat_store
  = (Normal tt, chat_store, []).
Proof.
  apply (proj2 (proj2 (unknown_frame_dropped env_up chat_store))).
  vm_compute. intros H. repeat (apply elem_of_cons in H as [H|H]; [discriminate|]).
  by apply elem_of_nil in H.
Defined.

(** ** Sending a message *)

Lemma field_set_field_eq (k : string) (v : JsVal) (d : Doc) :
  field d k = JUndefined → field (set_field k v d) k = v.
Proof.
  intros Hd. unfold set_field. destruct v; try done;
    unfold field; by rewrite lookup_insert_eq.
Qed.

Lemma newMsg_fields (env : Env) (data : Inbound) :
  field (newMsg env data) "userId" = uid data
  ∧ field (newMsg env data) "username" = username data
  ∧ field (newMsg env data) "text" = text data
  ∧ field (newMsg env data) "replyTo" = replyTo data
  ∧ field (newMsg env data) "type" = js_or (type data) JNull
  ∧ field (newMsg env data) "public_id" = js_or (public_id data) JNull.
Proof.
  unfold newMsg.
  split_and!;
    rewrite ?field_set_field_ne by done;
    (rewrite field_set_field_eq; [done|]);
    rewrite ?field_set_field_ne by done; done.
Qed.

(** A message frame for an existing room stores one document, under the
    id [Date.now().toString()], and sends that document to every client and
    to nobody else.  The document carries its id, the name of the room, the
    server timestamp and the six fields of the frame: [uid] as [userId],
    [username], [text], [replyTo], and [type] and [public_id] as [null] when
    missing.  Every other document of the database stays as it was. *)
Theorem message_broadcast_as_stored
    (env : Env) (st : Store) (data : Inbound) (r : string) :
  action data = JStr "message" →
  roomName data = JStr r →
  r ≠ "" →
  is_Some (rooms st !! r) →
  ∃ st' d,
    on_message env (Some data) st = (Normal tt, st', [ClientsSend (Message d)])
    ∧ message_doc st' r (pretty (date_now env)) = Some d
    ∧ field d "id" = JStr (pretty (date_now env))
    ∧ field d "roomName" = JStr r
    ∧ field d "timestamp" = JTime (server_timestamp env)
    ∧ field d "userId" = uid data
    ∧ field d "username" = username data
    ∧ field d "text" = text data
    ∧ field d "replyTo" = replyTo data
    ∧ field d "type" = js_or (type data) JNull
    ∧ field d "public_id" = js_or (public_id data) JNull
    ∧ rooms st' = rooms st
    ∧ users st' = users st
    ∧ (∀ r' m, (r', m) ≠ (r, pretty (date_now env)) →
         message_doc st' r' m = message_doc st r' m).
Proof.
  intros Ha Hr Hne [room Hroom]. eexists _, (newMsg env data).
  split; [by apply (message_run env st data r room)|].
  destruct (newMsg_fields env data) as (Hu & Hn & Ht & Hre & Hty & Hp).
  split_and!; try done.
  - rewrite message_doc_in_messages, decide_True by done. apply lookup_insert_eq.
  - apply newMsg_id.
  - by apply newMsg_roomName.
  - apply newMsg_timestamp.
  - intros r' m Hne'. rewrite message_doc_in_messages.
    case_decide as Hrr; [|done]. subst r'.
    rewrite lookup_insert_ne; [done|]. congruence.
Qed.

Lemma message_broadcast_as_stored_witness :
  ∃ st' d,
    on_message env_up
      (Some (message_frame (JStr "lobby") (JStr "u2") (JStr "bob") (JStr "hello")
                           JUndefined JUndefined))
      lobby_store
    = (Normal tt, st', [ClientsSend (Message d)])
    ∧ message_doc st' "lobby" "1700000000000" = Some d
    ∧ field d "userId" = JStr "u2"
    ∧ field d "username" = JStr "bob"
    ∧ field d "replyTo" = JUndefined
    ∧ field d "type" = JNull.
Proof.
  destruct (message_broadcast_as_stored env_up lobby_store
              (message_frame (JStr "lobby") (JStr "u2") (JStr "bob") (JStr "hello")
                             JUndefined JUndefined) "lobby")
    as (st' & d & Hrun & Hdoc & _ & _ & _ & Hu & Hn & _ & Hre & Hty & _);
    [reflexivity | reflexivity | discriminate | vm_compute; by eexists |].
  exists st', d. split; [exact Hrun|]. split; [exact Hdoc|].
  split; [exact Hu|]. split; [exact Hn|]. split; [exact Hre | exact Hty].
Defined.

Lemma strict_eq_refl (v : JsVal) : is_json v → strict_eq v v = true.
Proof.
  intros Hj. destruct v as [| |b|n|s|t]; simpl; try done.
  - by destruct b.
  - apply Z.eqb_refl.
  - apply String.eqb_refl.
  - by destruct (Hj t).
Qed.

Lemma js_or_null_truthy (v : JsVal) : truthy (js_or v JNull) = truthy v.
Proof. unfold js_or. by destruct (truthy v) eqn:E. Qed.

Lemma js_or_null_audio (v : JsVal) : js_or v JNull = JStr "audio" ↔ v = JStr "audio".
Proof.
  unfold js_or. destruct (truthy v) eqn:E; [done|].
  split; [done|]. intros ->. done.
Qed.

Lemma media_call_newMsg (env : Env) (data : Inbound) :
  media_call (newMsg env data)
  = if truthy (public_id data)
    then Some (public_id data,
               if decide (type data = JStr "audio") then "video" else "image")
    else None.
Proof.
  unfold media_call.
  destruct (newMsg_fields env data) as (_ & _ & _ & _ & -> & ->).
  rewrite js_or_null_truthy. destruct (truthy (public_id data)) eqn:Hp; [|done].
  unfold js_or at 1. rewrite Hp. do 2 f_equal.
  destruct (decide (type data = JStr "audio")) as [Ht|Ht].
  - rewrite decide_True; [done|]. by apply js_or_null_audio.
  - rewrite decide_False; [done|]. by rewrite js_or_null_audio.
Qed.

(** A message that was sent can be deleted by its sender with the id that
    was broadcast: the delete-message frame with that id and the [uid] of
    the message frame removes the document, answers [message-deleted] to
    the sender, and calls the media store once when the message frame had
    a [public_id] (category "video" for [type] "audio", "image" otherwise)
    and not at all when it had none.  When the id was new in the room, the
    messages of the room are again those before the send. *)
Theorem message_then_author_delete
    (env env' : Env) (st : Store) (data del : Inbound) (r : string) :
  action data = JStr "message" →
  roomName data = JStr r →
  r ≠ "" →
  is_Some (rooms st !! r) →
  is_json (uid data) →
  action del = JStr "delete-message" →
  roomName del = JStr r →
  msgId del = JStr (pretty (date_now env)) →
  uid del = uid data →
  ∃ st' tr,
    on_message env' (Some del) (after env data st) = (Normal tt, st', tr)
    ∧ message_doc st' r (pretty (date_now env)) = None
    ∧ frames tr = [WsSend (MessageDeleted (JStr (pretty (date_now env))))]
    ∧ destroy_calls tr
      = (if truthy (public_id data)
         then [(public_id data,
                if decide (type data = JStr "audio") then "video" else "image")]
         else [])
    ∧ (message_doc st r (pretty (date_now env)) = None →
       messages_of st' r = messages_of st r).
Proof.
  intros Ha Hr Hne [room Hroom] Hjson Hda Hdr Hdm Hdu.
  unfold after. rewrite (message_run env st data r room Ha Hr Hne Hroom). simpl.
  set (m := pretty (date_now env)) in *.
  set (st1 := in_messages r <[m := newMsg env data]> st).
  assert (Hdoc : message_doc st1 r m = Some (newMsg env data)).
  { unfold st1. rewrite message_doc_in_messages, decide_True by done.
    apply lookup_insert_eq. }
  rewrite (delete_message_run env' st1 del r m (newMsg env data) Hda Hdr Hdm Hne
             (pretty_N_nonempty _) Hdoc).
  destruct (newMsg_fields env data) as (Hu & _).
  rewrite Hu, Hdu, (strict_eq_refl _ Hjson).
  eexists _, _. split; [done|].
  split; [apply message_doc_in_messages_delete|].
  split.
  { unfold frames. rewrite filter_app. unfold media_cleanup.
    destruct (truthy _); [|done]. by destruct (destroy_resolves _ _ _). }
  split.
  { rewrite destroy_calls_app, destroy_calls_media_cleanup, media_call_newMsg.
    simpl. rewrite app_nil_r. by destruct (truthy (public_id data)). }
  intros Hfresh. unfold st1. rewrite !messages_of_in_messages.
  by apply delete_insert_id.
Qed.

Lemma message_then_author_delete_witness :
  ∃ st' tr,
    on_message env_media_down
      (Some (frame (JStr "delete-message") (JStr "lobby") (JStr "u2") JUndefined
                   (JStr "1700000000000")))
      (after env_up
         (message_frame (JStr "lobby") (JStr "u2") (JStr "bob") (JStr "")
                        (JStr "audio") (JStr "chat_app_audio/b7"))
         lobby_store)
    = (Normal tt, st', tr)
    ∧ message_doc st' "lobby" "1700000000000" = None
    ∧ frames tr = [WsSend (MessageDeleted (JStr "1700000000000"))]
    ∧ destroy_calls tr = [(JStr "chat_app_audio/b7", "video")]
    ∧ messages_of st' "lobby" = messages_of lobby_store "lobby".
Proof.
  destruct (message_then_author_delete env_up env_media_down lobby_store
              (message_frame (JStr "lobby") (JStr "u2") (JStr "bob") (JStr "")
                             (JStr "audio") (JStr "chat_app_audio/b7"))
              (frame (JStr "delete-message") (JStr "lobby") (JStr "u2") JUndefined
                     (JStr "1700000000000"))
              "lobby")
    as (st' & tr & Hrun & Hgone & Hframes & Hcalls & Hback);
    [reflexivity | reflexivity | discriminate | vm_compute; by eexists
    | intros t; discriminate | reflexivity | reflexivity | reflexivity
    | reflexivity |].
  exists st', tr. split; [exact Hrun|]. split; [exact Hgone|].
  split; [exact Hframes|]. split; [exact Hcalls|].
  apply Hback. vm_compute. reflexivity.
Defined.

(** Two messages sent to a room within the same millisecond get the same
    id: the second takes the place of the first, so the room has as many
    messages after the second send as after the first, and the document
    under that id is the second message. *)
Theorem message_same_millisecond_overwrites
    (env1 env2 : Env) (st : Store) (d1 d2 : Inbound) (r : string) :
  action d1 = JStr "message" →
  action d2 = JStr "message" →
  roomName d1 = JStr r →
  roomName d2 = JStr r →
  r ≠ "" →
  is_Some (rooms st !! r) →
  date_now env1 = date_now env2 →
  let st1 := after env1 d1 st in
  let st2 := after env2 d2 st1 in
  message_doc st1 r (pretty (date_now env1)) = Some (newMsg env1 d1)
  ∧ message_doc st2 r (pretty (date_now env1)) = Some (newMsg env2 d2)
  ∧ dom (messages_of st2 r) = dom (messages_of st1 r).
Proof.
  intros Ha1 Ha2 Hr1 Hr2 Hne [room Hroom] Hnow st1 st2.
  unfold st2, st1, after.
  rewrite (message_run env1 st d1 r room Ha1 Hr1 Hne Hroom). simpl.
  rewrite (message_run env2
             (in_messages r <[pretty (date_now env1) := newMsg env1 d1]> st)
             d2 r room Ha2 Hr2 Hne Hroom). simpl.
  rewrite <-Hnow. split_and!.
  - rewrite message_doc_in_messages, decide_True by done. apply lookup_insert_eq.
  - rewrite message_doc_in_messages, decide_True by done. apply lookup_insert_eq.
  - rewrite !messages_of_in_messages, !dom_insert_L. set_solver.
Qed.

Lemma message_same_millisecond_overwrites_witness :
  let d1 := message_frame (JStr "lobby") (JStr "u1") (JStr "ann") (JStr "first")
                          JUndefined JUndefined in
  let d2 := message_frame (JStr "lobby") (JStr "u2") (JStr "bob") (JStr "second")
                          JUndefined JUndefined in
  let st1 := after env_up d1 lobby_store in
  let st2 := after env_up d2 st1 in
  message_doc st1 "lobby" (pretty (date_now env_up)) = Some (newMsg env_up d1)
  ∧ message_doc st2 "lobby" (pretty (date_now env_up)) = Some (newMsg env_up d2)
  ∧ dom (messages_of st2 "lobby") = dom (messages_of st1 "lobby").
Proof.
  apply (message_same_millisecond_overwrites env_up env_up lobby_store _ _ "lobby");
    [reflexivity | reflexivity | reflexivity | reflexivity | discriminate
    | vm_compute; by eexists | reflexivity].
Defined.

(** ** Deleting what is not there *)

(** A delete-message frame for an id the room does not hold and a
    delete-room frame for a name no room has send no frame and change
    nothing; the first leaves one error line (the read of the author of a
    missing document throws), the second leaves no event.  The name and the
    id are ids of documents. *)
Theorem delete_absent_target_silent
    (env : Env) (st : Store) (data : Inbound) (r : string) :
  roomName data = JStr r →
  document_id r = true →
  (∀ m, action data = JStr "delete-message" →
        msgId data = JStr m →
        document_id m = true →
        message_doc st r m = None →
        on_message env (Some data) st
        = (Normal tt, st, [ConsoleError (MessageDeleteFailed TypeError)]))
  ∧ (action data = JStr "delete-room" →
     rooms st !! r = None →
     on_message env (Some data) st = (Normal tt, st, [])).
Proof.
  intros Hr Hne%document_id_nonempty. split.
  - intros m Ha Hm Hmne%document_id_nonempty Hd. run_task. rewrite Ha, Hr, Hm. simpl.
    rewrite (eqb_nonempty r Hne), (eqb_nonempty m Hmne). simpl. by rewrite Hd.
  - intros Ha Hroom. run_task. rewrite Ha, Hr. simpl.
    rewrite (eqb_nonempty r Hne). simpl. by rewrite Hroom.
Qed.

Lemma delete_absent_target_silent_witness :
  on_message env_up
    (Some (frame (JStr "delete-message") (JStr "lobby") (JStr "u1") JUndefined
                 (JStr "42")))
    chat_store
  = (Normal tt, chat_store, [ConsoleError (MessageDeleteFailed TypeError)])
  ∧ on_message env_up
      (Some (frame (JStr "delete-room") (JStr "attic") (JStr "u1") JUndefined JUndefined))
      chat_store
    = (Normal tt, chat_store, []).
Proof.
  split.
  - destruct (delete_absent_target_silent env_up chat_store
                (frame (JStr "delete-message") (JStr "lobby") (JStr "u1") JUndefined
                       (JStr "42"))
                "lobby") as [Hmessage _]; [reflexivity | reflexivity |].
    apply (Hmessage "42");
      [reflexivity | reflexivity | reflexivity | vm_compute; reflexivity].
  - destruct (delete_absent_target_silent env_up chat_store
                (frame (JStr "delete-room") (JStr "attic") (JStr "u1") JUndefined
                       JUndefined)
                "attic") as [_ Hroom]; [reflexivity | reflexivity |].
    apply Hroom; [reflexivity | vm_compute; reflexivity].
Defined.

(** ** Deleting an account: the other ways out *)

(** A delete-account frame without a usable [uid] does nothing at all.
    When the identity service fails for another reason than an unknown
    user, the flow stops there: nothing is deleted, no call reaches the
    media store, no frame is sent, one error line is written. *)
Theorem delete_account_stops_on_identity_failure
    (env : Env) (st : Store) (data : Inbound) :
  action data = JStr "delete-account" →
  (truthy (uid data) = false → on_message env (Some data) st = (Normal tt, st, []))
  ∧ (truthy (uid data) = true →
     auth_delete_user env (uid data) = AuthFailure →
     on_message env (Some data) st
     = (Normal tt, st, [ConsoleError (TotalDeleteFailed (AuthError false))])).
Proof.
  intros Ha. split.
  - intros Hu. run_task. by rewrite Ha, Hu.
  - intros Hu Hauth. run_task. by rewrite Ha, Hu, Hauth.
Qed.

Lemma delete_account_stops_on_identity_failure_witness :
  on_message
    (mkEnv 1700000000900%N 1700000002 (λ s, s) (λ _ _, false) (λ _ _, true)
           (λ _, AuthFailure))
    (Some (frame (JStr "delete-account") JUndefined (JStr "u1") JUndefined JUndefined))
    account_store
  = (Normal tt, account_store, [ConsoleError (TotalDeleteFailed (AuthError false))]).
Proof.
  destruct (delete_account_stops_on_identity_failure
              (mkEnv 1700000000900%N 1700000002 (λ s, s) (λ _ _, false) (λ _ _, true)
                     (λ _, AuthFailure))
              account_store
              (frame (JStr "delete-account") JUndefined (JStr "u1") JUndefined JUndefined))
    as [_ Hfailure]; [reflexivity|].
  apply Hfailure; reflexivity.
Defined.



(** ** Deleting an account: what is left *)

Lemma foldl_recursiveDelete (roomSnap : Snapshot) (st : Store) :
  let st' := foldl (λ s (room : string * Doc), recursiveDelete room.1 s) st roomSnap in
  users st' = users st
  ∧ (∀ r, rooms st' !! r = if decide (r ∈ roomSnap.*1) then None else rooms st !! r)
  ∧ (∀ r, messages st' !! r
          = if decide (r ∈ roomSnap.*1) then None else messages st !! r).
Proof.
  revert st. induction roomSnap as [|room rest IH]; intros st.
  { split; [done|]. split; intros r; by rewrite decide_False by apply not_elem_of_nil. }
  destruct (IH (recursiveDelete room.1 st)) as (Hu & Hr & Hm).
  assert (Hcase : ∀ (A : Type) (r : string) (y : option A),
            (if decide (r ∈ rest.*1) then None
             else if decide (room.1 = r) then None else y)
            = (if decide (r ∈ (room :: rest).*1) then None else y)).
  { intros A r y. rewrite fmap_cons.
    destruct (decide (r ∈ rest.*1)) as [Hin|Hnin].
    - rewrite decide_True; [done|]. by right.
    - destruct (decide (room.1 = r)) as [<-|Hne].
      + rewrite decide_True; [done|]. by left.
      + rewrite decide_False; [done|]. by intros [->|?]%elem_of_cons. }
  split; [exact Hu|].
  split; intros r.
  - change (foldl _ st (room :: rest)) with
      (foldl (λ s (room : string * Doc), recursiveDelete room.1 s)
             (recursiveDelete room.1 st) rest).
    rewrite Hr. simpl rooms. rewrite lookup_delete. by apply Hcase.
  - change (foldl _ st (room :: rest)) with
      (foldl (λ s (room : string * Doc), recursiveDelete room.1 s)
             (recursiveDelete room.1 st) rest).
    rewrite Hm. simpl messages. rewrite lookup_delete. by apply Hcase.
Qed.

Lemma elem_of_get_docs_where (k : string) (v : JsVal) (c : gmap string Doc) (r : string) :
  r ∈ (get_docs_where k v (map_to_list c)).*1
  ↔ ∃ room, c !! r = Some room ∧ field room k = v.
Proof.
  unfold get_docs_where. rewrite get_docs_Permutation, list_elem_of_fmap. split.
  - intros ([r' room] & -> & [Hf Hin]%list_elem_of_filter).
    apply elem_of_map_to_list in Hin. by exists room.
  - intros (room & Hroom & Hf). exists (r, room). split; [done|].
    apply list_elem_of_filter. split; [done|]. by apply elem_of_map_to_list.
Qed.

(** A delete-account frame that gets through (the identity service does
    not fail, the profile exists, its avatar, if any, is deleted) leaves a
    database without the profile, without any room the account created and
    without any message of those rooms; the other profiles, the rooms of
    other creators and their messages are as before.  The sender gets
    [delete-success] and every client the new room list. *)
Theorem delete_account_removes_everything
    (env : Env) (st : Store) (data : Inbound) (u : string) (profile : Doc) :
  action data = JStr "delete-account" →
  uid data = JStr u →
  u ≠ "" →
  auth_delete_user env (JStr u) ≠ AuthFailure →
  users st !! u = Some profile →
  (truthy (field profile "public_id") = true →
   destroy_resolves env (field profile "public_id") "image" = true) →
  ∃ st' tr,
    on_message env (Some data) st = (Normal tt, st', tr)
    ∧ users st' = delete u (users st)
    ∧ (∀ r room, rooms st' !! r = Some room
                 ↔ rooms st !! r = Some room ∧ field room "createdBy" ≠ JStr u)
    ∧ (∀ r room, rooms st !! r = Some room →
                 messages_of st' r
                 = if decide (field room "createdBy" = JStr u) then ∅
                   else messages_of st r)
    ∧ frames tr = [WsSend DeleteSuccess; ClientsSend (RoomsUpdated (room_list st'))].
Proof.
  intros Ha Hu Hne Hauth Hprof Hav. eexists _, _.
  split; [by apply (delete_account_run env st data u profile)|].
  destruct (foldl_recursiveDelete
              (get_docs_where "createdBy" (JStr u) (rooms_collection st))
              (with_users (delete u) st)) as (Husers & Hrooms & Hmsgs).
  simpl in Husers, Hrooms, Hmsgs.
  split; [exact Husers|]. split; [|split].
  - intros r room. rewrite Hrooms. unfold rooms_collection.
    case_decide as Hin.
    + apply elem_of_get_docs_where in Hin as (room' & Hr' & Hc).
      split; [done|]. intros [Hr Hnot]. congruence.
    + split; [|by intros [? _]]. intros Hr. split; [done|].
      intros Hc. apply Hin, elem_of_get_docs_where. by exists room.
  - intros r room Hr. unfold messages_of at 1. rewrite Hmsgs.
    unfold rooms_collection. case_decide as Hin.
    + apply elem_of_get_docs_where in Hin as (room' & Hr' & Hc).
      rewrite decide_True; [done|]. congruence.
    + rewrite decide_False; [done|].
      intros Hc. apply Hin, elem_of_get_docs_where. by exists room.
  - unfold frames. rewrite !filter_app.
    fold (frames (flat_map
                    (λ room : string * Doc,
                       flat_map (λ msg : string * Doc, media_cleanup env msg.2)
                                (get_docs (messages_collection st room.1)))
                    (get_docs_where "createdBy" (JStr u) (rooms_collection st)))).
    assert (Hcascade : ∀ l : Snapshot,
      frames (flat_map
                (λ room : string * Doc,
                   flat_map (λ msg : string * Doc, media_cleanup env msg.2)
                            (get_docs (messages_collection st room.1))) l) = []).
    { induction l as [|x l IH]; [done|]. simpl. unfold frames in *.
      rewrite filter_app, IH, app_nil_r. apply frames_media_cleanup. }
    rewrite Hcascade. by destruct (truthy (field profile "public_id")).
Qed.

Lemma delete_account_removes_everything_witness :
  ∃ st' tr,
    on_message env_up
      (Some (frame (JStr "delete-account") JUndefined (JStr "u1") JUndefined JUndefined))
      account_store
    = (Normal tt, st', tr)
    ∧ users st' = delete "u1" (users account_store)
    ∧ rooms st' !! "lobby" = None
    ∧ frames tr = [WsSend DeleteSuccess; ClientsSend (RoomsUpdated (room_list st'))].
Proof.
  destruct (delete_account_removes_everything env_up account_store
              (frame (JStr "delete-account") JUndefined (JStr "u1") JUndefined JUndefined)
              "u1" (default ∅ (users account_store !! "u1")))
    as (st' & tr & Hrun & Husers & Hrooms & _ & Hframes);
    [reflexivity | reflexivity | discriminate | discriminate
    | vm_compute; reflexivity | reflexivity |].
  exists st', tr. split; [exact Hrun|]. split; [exact Husers|].
  split; [|exact Hframes].
  destruct (rooms st' !! "lobby") as [room|] eqn:Hlobby; [|reflexivity].
  apply Hrooms in Hlobby as [Hstored Hcreator].
  exfalso. apply Hcreator. vm_compute in Hstored.
  injection Hstored as <-. vm_compute. reflexivity.
Defined.

(** ** The room list *)

#[global] Instance by_id_total : Total by_id.
Proof. intros x y. apply String.leb_total. Qed.

(** On a new connection every open socket gets the room list and the
    database is not touched.  The list has one entry for each room
    document and no other, in the order of the room names; an entry is
    marked private exactly when the stored password is a non-empty value,
    and carries the [createdBy] field of the room. *)
Theorem on_connection_room_list (st : Store) :
  on_connection st = (Normal tt, st, [ClientsSend (RoomsUpdated (room_list st))])
  ∧ name <$> room_list st ≡ₚ (map_to_list (rooms st)).*1
  ∧ NoDup (name <$> room_list st)
  ∧ Sorted (λ a b, String.leb a b = true) (name <$> room_list st)
  ∧ (∀ info, info ∈ room_list st
             ↔ ∃ room, rooms st !! name info = Some room
                       ∧ private info = truthy (field room "password")
                       ∧ createdBy info = field room "createdBy").
Proof.
  split; [done|].
  assert (Hnames : name <$> room_list st = (get_docs (rooms_collection st)).*1).
  { unfold room_list. rewrite <-list_fmap_compose. done. }
  split_and!.
  - rewrite Hnames. by rewrite get_docs_Permutation.
  - rewrite Hnames, get_docs_Permutation. apply NoDup_fst_map_to_list.
  - rewrite Hnames.
    apply (Sorted_fmap _ by_id); [done|]. apply (Sorted_merge_sort _).
  - intros info. unfold room_list. rewrite list_elem_of_fmap. split.
    + intros ([r room] & -> & Hin). simpl.
      rewrite get_docs_Permutation in Hin. apply elem_of_map_to_list in Hin.
      by exists room.
    + intros (room & Hroom & Hp & Hc). exists (name info, room). split.
      * destruct info as [n p c]. simpl in *. by subst.
      * rewrite get_docs_Permutation. by apply elem_of_map_to_list.
Qed.

(** ** Joining is read-only *)

(** Whatever a join frame holds, the handler does not write to the
    database, sends nothing to the other clients and makes no call to the
    media store: the trace is empty, one error line, or one frame to the
    sender. *)
Theorem join_read_only (env : Env) (st : Store) (data : Inbound) :
  action data = JStr "join" →
  ∃ tr,
    on_message env (Some data) st = (Normal tt, st, tr)
    ∧ (tr = [] ∨ (∃ l, tr = [ConsoleError l]) ∨ (∃ e, tr = [WsSend e])).
Proof.
  intros Ha. run_task. rewrite Ha. simpl.
  destruct (roomName data) as [| |b|n|r|t]; simpl; try by eauto 6.
  destruct (r =? "")%string; simpl; [by eauto 6|].
  destruct (rooms st !! r) as [room|]; simpl; [|by eauto 6].
  destruct (truthy (field room "password")); simpl; [|by eauto 6].
  destruct (password data) as [| |b|n|p|t]; simpl; try by eauto 6.
  destruct (field room "password") as [| |b|n|h|t]; simpl; try by eauto 6.
  destruct (bcrypt_compare env p h); simpl; by eauto 6.
Qed.

Lemma join_read_only_witness :
  ∃ tr,
    on_message env_up
      (Some (frame (JStr "join") (JStr "vault") JUndefined (JNum 7) JUndefined))
      vault_store
    = (Normal tt, vault_store, tr)
    ∧ (tr = [] ∨ (∃ l, tr = [ConsoleError l]) ∨ (∃ e, tr = [WsSend e])).
Proof.
  apply (join_read_only env_up vault_store
           (frame (JStr "join") (JStr "vault") JUndefined (JNum 7) JUndefined)).
  reflexivity.
Defined.

(** ** Create frames that are dropped *)

Lemma create_without_roomName_silent_witness :
  ∃ tr,
    on_message env_up
      (Some (frame (JStr "create") JUndefined (JStr "u1") JUndefined JUndefined))
      lobby_store
    = (Normal tt, lobby_store, tr)
    ∧ frames tr = [].
Proof.
  apply (create_without_roomName_silent env_up lobby_store
           (frame (JStr "create") JUndefined (JStr "u1") JUndefined JUndefined));
    reflexivity.
Defined.

(** A create frame for a name no room has (the id of a document) whose
    [password] is a non-empty value that is not a string (a number, [true])
    is dropped: the hash call rejects it, no room is written, no frame is
    sent, one error line is written. *)
Theorem create_non_string_password_dropped
    (env : Env) (st : Store) (data : Inbound) (r : string) :
  action data = JStr "create" →
  roomName data = JStr r →
  document_id r = true →
  rooms st !! r = None →
  truthy (password data) = true →
  (∀ p, password data ≠ JStr p) →
  on_message env (Some data) st
  = (Normal tt, st, [ConsoleError (ErrorHandlingMessage BcryptError)]).
Proof.
  intros Ha Hr Hne%document_id_nonempty Hroom Hp Hns. run_task. rewrite Ha, Hr. simpl.
  rewrite (eqb_nonempty r Hne). simpl. rewrite Hroom, Hp.
  destruct (password data) as [| |b|n|p|t]; simpl; try done.
  by destruct (Hns p).
Qed.

Lemma create_non_string_password_dropped_witness :
  on_message env_up
    (Some (frame (JStr "create") (JStr "vault") (JStr "u1") (JNum 1234) JUndefined))
    lobby_store
  = (Normal tt, lobby_store, [ConsoleError (ErrorHandlingMessage BcryptError)]).
Proof.
  apply (create_non_string_password_dropped env_up lobby_store _ "vault");
    [reflexivity | reflexivity | reflexivity
    | vm_compute; reflexivity | reflexivity | intros p; discriminate].
Defined.

Lemma create_without_uid_run_witness :
  on_message env_up
    (Some (frame (JStr "create") (JStr "vault") JUndefined JUndefined JUndefined))
    lobby_store
  = (Normal tt, after env_up
                  (frame (JStr "create") (JStr "vault") JUndefined JUndefined JUndefined)
                  lobby_store,
     [WsSend (CreateSuccess (JStr "vault"));
      ClientsSend
        (RoomsUpdated
           (room_list
              (after env_up
                 (frame (JStr "create") (JStr "vault") JUndefined JUndefined JUndefined)
                 lobby_store)))]).
Proof.
  apply (create_without_uid_run env_up lobby_store
           (frame (JStr "create") (JStr "vault") JUndefined JUndefined JUndefined)
           "vault");
    [reflexivity | reflexivity | reflexivity | reflexivity | reflexivity
    | vm_compute; reflexivity].
Defined.

Lemma delete_account_avatar_failure_run_witness :
  on_message env_media_down
    (Some (frame (JStr "delete-account") JUndefined (JStr "u1") JUndefined JUndefined))
    account_store
  = (Normal tt, account_store,
     [CloudinaryDestroy (field (default ∅ (users account_store !! "u1")) "public_id")
                        "image";
      ConsoleError (TotalDeleteFailed ReferenceError)]).
Proof.
  apply (delete_account_avatar_failure_run env_media_down account_store _ "u1"
           (default ∅ (users account_store !! "u1")));
    [reflexivity | reflexivity | discriminate | discriminate
    | vm_compute; reflexivity | vm_compute; reflexivity | vm_compute; reflexivity].
Defined.

(** * The HTTP routes *)

Ltac run_route :=
  unfold Http.user_update, Http.upload_img, Http.upload_audio, Http.upload_route,
    Http.update, Http.doc, Http.destroy, Http.upload, Http.unlinkSync,
    Http.console_error, Http.try_catch, Http.emit, Http.read, Http.write,
    Http.throw, mbind, Http.Route_bind, Http.bind, mret, Http.Route_ret, Http.ret.

Lemma get_docs_where_nil (k : string) (v : JsVal) (c : gmap string Doc) :
  get_docs_where k v (map_to_list c) = []
  ↔ ∀ r d, c !! r = Some d → field d k ≠ v.
Proof.
  split.
  - intros Hnil r d Hd Hf.
    assert (Hin : r ∈ (get_docs_where k v (map_to_list c)).*1).
    { apply elem_of_get_docs_where. by exists d. }
    rewrite Hnil in Hin. by apply elem_of_nil in Hin.
  - intros Hnone. destruct (get_docs_where k v (map_to_list c)) as [|[r d] l] eqn:E; [done|].
    assert (Hin : r ∈ (get_docs_where k v (map_to_list c)).*1).
    { rewrite E. simpl. by left. }
    apply elem_of_get_docs_where in Hin as (d' & Hd' & Hf).
    by destruct (Hnone r d' Hd').
Qed.

(** A request whose [username] some profile already has is answered
    "Username already used!" and nothing else happens: no profile changes,
    the old avatar is not deleted, the file is not uploaded.  The profile
    that has the name may be the one of the requester. *)
Theorem user_update_username_taken
    (cloud : Http.Cloud) (st : Store) (req : Http.Request) (u : string) (d : Doc) :
  truthy (Http.username req) = true →
  users st !! u = Some d →
  field d "username" = Http.username req →
  Http.user_update cloud req st
  = (inr (Http.json {[ "message" := JStr "Username already used!" ]}), st, []).
Proof.
  intros Hname Hd Hsame. run_route. rewrite Hname. simpl.
  destruct (get_docs_where "username" (Http.username req) (map_to_list (users st)))
    as [|x l] eqn:E; [|done].
  exfalso. by apply (proj1 (get_docs_where_nil _ _ _) E u d).
Qed.

(** The database [POST /user/update] leaves: as it was, or with the one
    profile updated. *)
Lemma user_update_store (cloud : Http.Cloud) (req : Http.Request) (st : Store) :
  (Http.user_update cloud req st).1.2 = st
  ∨ ∃ u d,
      Http.uid req = JStr u
      ∧ users st !! u = Some d
      ∧ (truthy (Http.username req) = true →
         ∀ u' d', users st !! u' = Some d' → field d' "username" ≠ Http.username req)
      ∧ (Http.user_update cloud req st).1.2
        = with_users <[u := Http.updateData req (avatar_result cloud req) ∪ d]> st.
Proof.
  run_route. unfold avatar_result.
  destruct (truthy (Http.username req)) eqn:Hname; simpl.
  - destruct (get_docs_where "username" (Http.username req) (map_to_list (users st)))
      as [|x l] eqn:E; simpl; [|by left].
    pose proof (proj1 (get_docs_where_nil _ _ _) E) as Hfree.
    destruct (truthy (Http.public_id req)); simpl;
      [destruct (Http.destroy_resolves cloud _ _); simpl; [|by left]|];
      (destruct (Http.has_file req); simpl;
       [destruct (Http.upload_result cloud _ _ _) as [res|]; simpl;
        [destruct (Http.file req) as [p|]; simpl;
         [destruct (Http.unlink_ok cloud p); simpl|]|]|];
       (case_decide; simpl; [by left|]);
       (destruct (Http.uid req) as [| |b|n|u|t]; simpl; try by left);
       (destruct (u =? "")%string; simpl; [by left|]);
       (destruct (users st !! u) as [d|] eqn:Hd; simpl; [|by left]);
       right; exists u, d; by split_and!).
  - destruct (truthy (Http.public_id req)); simpl;
      [destruct (Http.destroy_resolves cloud _ _); simpl; [|by left]|];
      (destruct (Http.has_file req); simpl;
       [destruct (Http.upload_result cloud _ _ _) as [res|]; simpl;
        [destruct (Http.file req) as [p|]; simpl;
         [destruct (Http.unlink_ok cloud p); simpl|]|]|];
       (case_decide; simpl; [by left|]);
       (destruct (Http.uid req) as [| |b|n|u|t]; simpl; try by left);
       (destruct (u =? "")%string; simpl; [by left|]);
       (destruct (users st !! u) as [d|] eqn:Hd; simpl; [|by left]);
       right; exists u, d; by split_and!).
Qed.

Lemma field_union (data d : Doc) (k : string) :
  field (data ∪ d) k = match data !! k with Some v => v | None => field d k end.
Proof.
  unfold field. rewrite lookup_union.
  destruct (data !! k) as [v|], (d !! k) as [w|]; done.
Qed.

Lemma updateData_username (req : Http.Request) (result : option (string * string)) :
  Http.updateData req result !! "username"
  = if truthy (Http.username req) then Some (Http.username req) else None.
Proof.
  unfold Http.updateData.
  destruct (truthy (Http.username req)); [apply lookup_insert_eq|].
  destruct result as [r|]; simpl; [|apply lookup_empty].
  by simplify_map_eq.
Qed.

Lemma updateData_avatar (req : Http.Request) (result : option (string * string)) :
  Http.updateData req result !! "avatar" = (λ r, JStr r.2) <$> result
  ∧ Http.updateData req result !! "public_id" = (λ r, JStr r.1) <$> result.
Proof.
  unfold Http.updateData.
  destruct (truthy (Http.username req)), result as [r|]; simpl;
    split; by simplify_map_eq.
Qed.

Lemma updateData_other (req : Http.Request) (result : option (string * string))
    (k : string) :
  k ≠ "username" → k ≠ "avatar" → k ≠ "public_id" →
  Http.updateData req result !! k = None.
Proof.
  intros H1 H2 H3. unfold Http.updateData.
  destruct (truthy (Http.username req)), result as [r|]; simpl;
    by simplify_map_eq.
Qed.

(** [POST /user/update] keeps usernames unique: if no two profiles share
    a username before the request, none do after it, whatever the request
    holds and whatever the media store and the file system answer. *)
Theorem user_update_keeps_usernames_unique
    (cloud : Http.Cloud) (req : Http.Request) (st : Store) :
  Http.unique_usernames st →
  Http.unique_usernames (Http.user_update cloud req st).1.2.
Proof.
  intros Huniq.
  destruct (user_update_store cloud req st) as [->|(u & d & _ & Hd & Hfree & ->)];
    [done|].
  assert (Hnew : ∀ u2 d2,
    u2 ≠ u → users st !! u2 = Some d2 →
    field (Http.updateData req (avatar_result cloud req) ∪ d) "username"
    = field d2 "username" →
    field d2 "username" ≠ JUndefined → False).
  { intros u2 d2 Hne Hd2. rewrite field_union, updateData_username.
    destruct (truthy (Http.username req)) eqn:Hname.
    - intros Heq _. by apply (Hfree eq_refl u2 d2 Hd2).
    - intros Heq Hdef. apply Hne. symmetry.
      apply (Huniq u u2 d d2 Hd Hd2 Heq). by rewrite Heq. }
  intros u1 u2 d1 d2. simpl. rewrite !lookup_insert.
  destruct (decide (u = u1)) as [<-|Hne1], (decide (u = u2)) as [<-|Hne2]; try done.
  - intros [= <-] Hd2 Heq Hdef. exfalso.
    apply (Hnew u2 d2); [done..|]. by rewrite <-Heq.
  - intros Hd1 [= <-] Heq Hdef. exfalso.
    by apply (Hnew u1 d1).
  - apply Huniq.
Qed.

Lemma unique_usernames_profile_store : Http.unique_usernames profile_store.
Proof.
  intros u1 u2 d1 d2. unfold profile_store. simpl.
  intros [<- _]%lookup_singleton_Some [<- _]%lookup_singleton_Some. done.
Qed.

Lemma user_update_username_taken_witness :
  Http.user_update Http.cloud_up
    (Http.mkRequest (JStr "chat_app_avatar/old") (JStr "ann") (JStr "u1")
                    (Some "temp/image/f1"))
    profile_store
  = (inr (Http.json {[ "message" := JStr "Username already used!" ]}),
     profile_store, []).
Proof.
  apply (user_update_username_taken Http.cloud_up profile_store _ "u1"
           (default ∅ (users profile_store !! "u1")));
    [reflexivity | vm_compute; reflexivity | vm_compute; reflexivity].
Defined.

Lemma user_update_keeps_usernames_unique_witness :
  Http.unique_usernames
    (Http.user_update Http.cloud_up
       (Http.mkRequest JUndefined (JStr "bea") (JStr "u1") None) profile_store).1.2.
Proof.
  apply (user_update_keeps_usernames_unique Http.cloud_up
           (Http.mkRequest JUndefined (JStr "bea") (JStr "u1") None) profile_store).
  apply unique_usernames_profile_store.
Defined.

(** When a request names an old avatar and the media store refuses to
    delete it, the route answers 500 "Update failed !" and the profile is
    not updated: the new avatar is not uploaded and a new username is not
    written. *)
Theorem user_update_old_avatar_failure
    (cloud : Http.Cloud) (st : Store) (req : Http.Request) :
  (truthy (Http.username req) = true →
   ∀ u d, users st !! u = Some d → field d "username" ≠ Http.username req) →
  truthy (Http.public_id req) = true →
  Http.destroy_resolves cloud (Http.public_id req) "image" = false →
  Http.user_update cloud req st
  = (inr update_failed, st,
     [Http.Destroy (Http.public_id req) "image"; Http.ConsoleError "Update error:"]).
Proof.
  intros Hfree Hpid Hrej. run_route. rewrite Hpid, Hrej.
  destruct (truthy (Http.username req)) eqn:Hname; simpl; [|done].
  by rewrite (proj2 (get_docs_where_nil _ _ _) (Hfree eq_refl)).
Qed.

Lemma user_update_old_avatar_failure_witness :
  Http.user_update Http.cloud_down
    (Http.mkRequest (JStr "chat_app_avatar/old") (JStr "bea") (JStr "u1")
                    (Some "temp/image/f1"))
    profile_store
  = (inr update_failed, profile_store,
     [Http.Destroy (JStr "chat_app_avatar/old") "image";
      Http.ConsoleError "Update error:"]).
Proof.
  apply (user_update_old_avatar_failure Http.cloud_down profile_store
           (Http.mkRequest (JStr "chat_app_avatar/old") (JStr "bea") (JStr "u1")
                           (Some "temp/image/f1")));
    [|reflexivity|reflexivity].
  intros _ u d. unfold profile_store. simpl.
  intros [_ <-]%lookup_singleton_Some. vm_compute. discriminate.
Defined.

(** [POST /user/update] once the username is free and the old avatar, if
    any, is deleted. *)
Lemma user_update_run (cloud : Http.Cloud) (st : Store) (req : Http.Request) :
  (truthy (Http.username req) = true →
   ∀ u d, users st !! u = Some d → field d "username" ≠ Http.username req) →
  (truthy (Http.public_id req) = true →
   Http.destroy_resolves cloud (Http.public_id req) "image" = true) →
  Http.user_update cloud req st
  = let data := Http.updateData req (avatar_result cloud req) in
    let pre := old_avatar_effects req ++ avatar_effects cloud req in
    let failure := (inr update_failed, st, pre ++ [Http.ConsoleError "Update error:"]) in
    if decide (data = ∅) then (inr nothing_to_update, st, pre)
    else
      match Http.uid req with
      | JStr u =>
          if (u =? "")%string then failure
          else
            match users st !! u with
            | Some d => (inr profile_updated, with_users <[u := data ∪ d]> st, pre)
            | None => failure
            end
      | _ => failure
      end.
Proof.
  intros Hfree Hav. run_route. unfold avatar_result, old_avatar_effects, avatar_effects.
  assert (Hquery : (if truthy (Http.username req)
                    then get_docs_where "username" (Http.username req)
                           (map_to_list (users st))
                    else []) = []).
  { destruct (truthy (Http.username req)); [|done].
    by apply get_docs_where_nil, Hfree. }
  destruct (truthy (Http.username req)) eqn:Hname; simpl; rewrite ?Hquery; simpl;
    (destruct (truthy (Http.public_id req)); simpl;
     [rewrite Hav by done; simpl|]);
    (destruct (Http.has_file req) eqn:Hfile; simpl;
     [destruct (Http.upload_result cloud _ _ _) as [res|]; simpl;
      [destruct (Http.file req) as [p|]; simpl;
       [destruct (Http.unlink_ok cloud p); simpl|]|]|]);
    (case_decide; simpl; [done|]);
    (destruct (Http.uid req) as [| |b|n|u|t]; simpl; try done);
    (destruct (u =? "")%string; simpl; [done|]);
    by destruct (users st !! u).
Qed.

(** A request that names the old avatar but brings neither a username
    nor a new avatar (no file, or an upload the media store rejects) is
    answered "Nothing to update.": the profile is not touched, and so keeps
    pointing to the old avatar, although the old avatar has been deleted
    from the media store. *)
Theorem user_update_deletes_avatar_without_replacement
    (cloud : Http.Cloud) (st : Store) (req : Http.Request) :
  truthy (Http.username req) = false →
  avatar_result cloud req = None →
  truthy (Http.public_id req) = true →
  Http.destroy_resolves cloud (Http.public_id req) "image" = true →
  ∃ tr,
    Http.user_update cloud req st = (inr nothing_to_update, st, tr)
    ∧ Http.Destroy (Http.public_id req) "image" ∈ tr.
Proof.
  intros Hname Hres Hpid Hok.
  rewrite user_update_run; [|by rewrite Hname|done].
  rewrite Hres. unfold Http.updateData. rewrite Hname. simpl.
  eexists. split; [done|].
  unfold old_avatar_effects. rewrite Hpid. by left.
Qed.

Lemma user_update_deletes_avatar_without_replacement_witness :
  ∃ tr,
    Http.user_update Http.cloud_up
      (Http.mkRequest (JStr "chat_app_avatar/old") JUndefined (JStr "u1") None)
      profile_store
    = (inr nothing_to_update, profile_store, tr)
    ∧ Http.Destroy (JStr "chat_app_avatar/old") "image" ∈ tr.
Proof.
  apply (user_update_deletes_avatar_without_replacement Http.cloud_up profile_store
           (Http.mkRequest (JStr "chat_app_avatar/old") JUndefined (JStr "u1") None));
    reflexivity.
Defined.

(** A request with a free username or an accepted avatar upload, for an
    existing profile, is answered "Profile updated.".  The profile gets the
    username when one was sent, and the address and id of the new avatar when
    one was uploaded (also when the temporary file could not be removed);
    without an upload it keeps its avatar fields.  Its other fields and the
    other profiles stay as they were. *)
Theorem user_update_profile_updated
    (cloud : Http.Cloud) (st : Store) (req : Http.Request) (u : string) (d : Doc) :
  (truthy (Http.username req) = true →
   ∀ u' d', users st !! u' = Some d' → field d' "username" ≠ Http.username req) →
  (truthy (Http.public_id req) = true →
   Http.destroy_resolves cloud (Http.public_id req) "image" = true) →
  Http.uid req = JStr u →
  u ≠ "" →
  users st !! u = Some d →
  (truthy (Http.username req) = true ∨ is_Some (avatar_result cloud req)) →
  ∃ st' tr d',
    Http.user_update cloud req st = (inr profile_updated, st', tr)
    ∧ users st' !! u = Some d'
    ∧ (∀ u', u' ≠ u → users st' !! u' = users st !! u')
    ∧ rooms st' = rooms st ∧ messages st' = messages st
    ∧ field d' "username"
      = (if truthy (Http.username req) then Http.username req else field d "username")
    ∧ field d' "avatar"
      = from_option (λ r, JStr r.2) (field d "avatar") (avatar_result cloud req)
    ∧ field d' "public_id"
      = from_option (λ r, JStr r.1) (field d "public_id") (avatar_result cloud req)
    ∧ (∀ k, k ≠ "username" → k ≠ "avatar" → k ≠ "public_id" → field d' k = field d k).
Proof.
  intros Hfree Hav Hu Hne Hd Hsome.
  rewrite (user_update_run cloud st req Hfree Hav). simpl.
  rewrite Hu, (eqb_nonempty u Hne), Hd.
  assert (Hdata : Http.updateData req (avatar_result cloud req) ≠ ∅).
  { intros Hempty.
    destruct Hsome as [Hname|[r Hr]].
    - pose proof (updateData_username req (avatar_result cloud req)) as H.
      rewrite Hempty, Hname, lookup_empty in H. done.
    - pose proof (proj1 (updateData_avatar req (avatar_result cloud req))) as H.
      rewrite Hempty, Hr, lookup_empty in H. done. }
  rewrite decide_False by done.
  eexists _, _, _. split; [done|]. simpl.
  split; [apply lookup_insert_eq|].
  split; [intros u' Hu'; by rewrite lookup_insert_ne|].
  split; [done|]. split; [done|].
  destruct (updateData_avatar req (avatar_result cloud req)) as [Ha Hp].
  split_and!.
  - rewrite field_union, updateData_username.
    by destruct (truthy (Http.username req)).
  - rewrite field_union, Ha. by destruct (avatar_result cloud req).
  - rewrite field_union, Hp. by destruct (avatar_result cloud req).
  - intros k H1 H2 H3. by rewrite field_union, updateData_other.
Qed.

Lemma user_update_profile_updated_witness :
  ∃ st' tr d',
    Http.user_update
      (Http.mkCloud (Http.upload_result Http.cloud_up) (λ _, false) (λ _ _, true))
      (Http.mkRequest (JStr "chat_app_avatar/old") JUndefined (JStr "u1")
                      (Some "temp/image/f1"))
      profile_store
    = (inr profile_updated, st', tr)
    ∧ users st' !! "u1" = Some d'
    ∧ field d' "username" = JStr "ann"
    ∧ field d' "public_id" = JStr "chat_app_avatar/temp/image/f1".
Proof.
  destruct (user_update_profile_updated
              (Http.mkCloud (Http.upload_result Http.cloud_up) (λ _, false) (λ _ _, true))
              profile_store
              (Http.mkRequest (JStr "chat_app_avatar/old") JUndefined (JStr "u1")
                              (Some "temp/image/f1"))
              "u1" (default ∅ (users profile_store !! "u1")))
    as (st' & tr & d' & Hrun & Hdoc & _ & _ & _ & Hname & _ & Hpid & _);
    [intros Hname; discriminate Hname | reflexivity | reflexivity | discriminate
    | vm_compute; reflexivity | right; vm_compute; by eexists |].
  exists st', tr, d'. split; [exact Hrun|]. split; [exact Hdoc|].
  split; [rewrite Hname; vm_compute; reflexivity|].
  rewrite Hpid. vm_compute. reflexivity.
Defined.



(** [POST /upload/img] and [POST /upload/audio] never touch the database
    and never delete media.  They answer 200, with the id and the address the
    media store returned, exactly when the upload was accepted and the
    temporary file was removed; in every other case they answer 500 "Upload
    failed !", also when the media store has already stored the file.  The
    audio route uploads under the resource type "video", the image route
    under the default one. *)
Theorem upload_routes_answer
    (cloud : Http.Cloud) (file : option string) (st : Store) :
  let answer (folder : string) (resource_type : option string)
             (out : (Http.Failure + Http.Response) * Store * list Http.Effect) :=
    out.1.2 = st
    ∧ (∀ p r, Http.Destroy p r ∉ out.2)
    ∧ Http.Upload file folder resource_type ∈ out.2
    ∧ match Http.upload_result cloud file folder resource_type, file with
      | Some result, Some p =>
          if Http.unlink_ok cloud p
          then out.1.1 = inr (Http.json {[ "public_id" := JStr result.1;
                                           "url" := JStr result.2 ]})
          else out.1.1 = inr (Http.mkResponse 500
                                {[ "type" := JStr "error";
                                   "message" := JStr "Upload failed !" ]})
      | _, _ => out.1.1 = inr (Http.mkResponse 500
                                 {[ "type" := JStr "error";
                                    "message" := JStr "Upload failed !" ]})
      end in
  answer "chat_app_images" None (Http.upload_img cloud file st)
  ∧ answer "chat_app_audio" (Some "video") (Http.upload_audio cloud file st).
Proof.
  simpl. run_route.
  split;
    (destruct (Http.upload_result cloud file _ _) as [result|]; simpl;
     [destruct file as [p|]; simpl; [destruct (Http.unlink_ok cloud p); simpl|]|]);
    (split_and!; [done| |by left|done]);
    intros p' r' Hin;
    repeat (apply elem_of_cons in Hin as [Hin|Hin]; [discriminate|]);
    by apply elem_of_nil in Hin.
Qed.
